(** * CAMPIE [run_kernel]: shape reconciliation and launch configuration

    A shallow embedding of [campie/run.py].  The single Python function
    [run_kernel] is embedded step by step: Python's tuple indexing and
    slicing, [sorted], [math.prod], [min], the true division [/] on ints
    followed by [math.ceil], the CuPy calls ([cp.zeros], [cp.asarray],
    [reshape], [transpose]) and the kernel launch.

    Conventions.
    - A shape is a tuple of non-negative ints: [list N].
    - Tuple indices, slice bounds and transpose axes are Python ints that
      may be negative: [Z].
    - [int / int] is Python's true division: the quotient correctly rounded
      to a binary64 float (53 bits, round half to even); [math.ceil] turns
      that float back into an int.
    - Exceptions are values of [exn]; the calls that touch the device are
      logged in program order. *)

From Stdlib Require Import List ZArith NArith Lia Bool Arith.
Import ListNotations.

Set Implicit Arguments.

(** ** Exceptions and fallible computations *)

Inductive exn : Type :=
| ZeroDivisionError
| OverflowError
| IndexError
| ValueError
| AssertionError.

Inductive result (A : Type) : Type :=
| Ok (a : A)
| Raise (e : exn).

Arguments Ok {A} a.
Arguments Raise {A} e.

Definition rbind {A B} (r : result A) (f : A -> result B) : result B :=
  match r with
  | Ok a => f a
  | Raise e => Raise e
  end.

Fixpoint rmap {A B} (f : A -> result B) (l : list A) : result (list B) :=
  match l with
  | [] => Ok []
  | x :: xs =>
      rbind (f x) (fun y => rbind (rmap f xs) (fun ys => Ok (y :: ys)))
  end.

(** ** Python built-ins used by [run_kernel] *)

Module Py.

(** [t[i]] on a tuple, negative indices counted from the end. *)
Definition index {A} (t : list A) (i : Z) : result A :=
  let n := Z.of_nat (length t) in
  let j := if (i <? 0)%Z then (i + n)%Z else i in
  if ((0 <=? j) && (j <? n))%Z
  then match nth_error t (Z.to_nat j) with
       | Some x => Ok x
       | None => Raise IndexError
       end
  else Raise IndexError.

(** [t[:stop]]: a negative bound is counted from the end, then the bound is
    clamped into [0, len(t)]. *)
Definition slice_stop {A} (t : list A) (stop : Z) : list A :=
  let n := Z.of_nat (length t) in
  let s := if (stop <? 0)%Z then Z.max (stop + n) 0 else Z.min stop n in
  firstn (Z.to_nat s) t.

(** [range(start, stop)] as a list. *)
Definition range (start stop : Z) : list Z :=
  map (fun k => (start + Z.of_nat k)%Z) (seq 0 (Z.to_nat (stop - start))).

(** [math.prod]. *)
Definition prod (t : list N) : N := fold_right N.mul 1%N t.

(** [sorted(l, key=key)]: a stable sort, here by insertion. *)
Fixpoint insert_by {A} (key : A -> nat) (x : A) (l : list A) : list A :=
  match l with
  | [] => [x]
  | y :: ys => if key x <=? key y then x :: y :: ys else y :: insert_by key x ys
  end.

Definition sorted {A} (key : A -> nat) (l : list A) : list A :=
  fold_right (insert_by key) [] l.

(** [a, b = t]: unpacking into exactly two names. *)
Definition unpack2 {A} (t : list A) : result (A * A) :=
  match t with
  | [a; b] => Ok (a, b)
  | _ => Raise ValueError
  end.

(** [a // b] on non-negative ints. *)
Definition floordiv (a b : N) : result N :=
  if (b =? 0)%N then Raise ZeroDivisionError else Ok (a / b)%N.

(** A finite non-negative binary64 value [mant * 2^expo]. *)
Record float : Type := Float { mant : N; expo : Z }.

(** Round [num / den] to the nearest integer, ties to even. *)
Definition round_half_even (num den : N) : N :=
  let q := (num / den)%N in
  let r := (num mod den)%N in
  if (2 * r <? den)%N then q
  else if (den <? 2 * r)%N then (q + 1)%N
  else if N.even q then q else (q + 1)%N.

(** [b * 2^d <= a], for an exponent [d] of either sign. *)
Definition ge_scaled (a b : N) (d : Z) : bool :=
  if (0 <=? d)%Z then (b * 2 ^ Z.to_N d <=? a)%N
  else (b <=? a * 2 ^ Z.to_N (- d))%N.

(** [a / b] on non-negative ints: the exact quotient rounded to 53
    significant bits (exponent of the last place at least [-1074]), with
    [ZeroDivisionError] for [b = 0] and [OverflowError] when the rounded
    value does not fit a binary64. *)
Definition truediv (a b : N) : result float :=
  if (b =? 0)%N then Raise ZeroDivisionError
  else if (a =? 0)%N then Ok (Float 0 0)
  else
    let d := (Z.of_N (N.log2 a) - Z.of_N (N.log2 b))%Z in
    let l := if ge_scaled a b d then d else (d - 1)%Z in
    let e := Z.max (l - 52) (-1074) in
    let num := (a * 2 ^ Z.to_N (Z.max 0 (- e)))%N in
    let den := (b * 2 ^ Z.to_N (Z.max 0 e))%N in
    let m := round_half_even num den in
    if ((0 <? e)%Z && (2 ^ 1024 <=? m * 2 ^ Z.to_N e)%N)%bool
    then Raise OverflowError
    else Ok (Float m e).

(** [math.ceil] of a finite non-negative float. *)
Definition ceil (x : float) : N :=
  if (0 <=? expo x)%Z then (mant x * 2 ^ Z.to_N (expo x))%N
  else
    let p := (2 ^ Z.to_N (- expo x))%N in
    ((mant x + p - 1) / p)%N.

End Py.

(** ** Arrays

    An [ndarray] is a view: a shape, one stride per dimension (counted in
    elements) and the flat buffer it reads from. *)

Section Arrays.

Variable V : Type.
Variable DType : Type.

Record ndarray : Type := NDArray {
  shape : list N;
  strides : list N;
  dtype : DType;
  buf : list V
}.

(** Row-major (C order) strides of a shape. *)
Fixpoint c_strides (s : list N) : list N :=
  match s with
  | [] => []
  | _ :: rest => Py.prod rest :: c_strides rest
  end.

(** Offset of a multi-index under given strides. *)
Fixpoint offset (idx strd : list N) : N :=
  match idx, strd with
  | i :: idx', s :: strd' => (i * s + offset idx' strd')%N
  | _, _ => 0%N
  end.

Fixpoint in_bounds (idx shp : list N) : bool :=
  match idx, shp with
  | [], [] => true
  | i :: idx', d :: shp' => (i <? d)%N && in_bounds idx' shp'
  | _, _ => false
  end.

(** [a[i0, ..., ik]] for a full non-negative multi-index. *)
Definition getitem (a : ndarray) (idx : list N) : option V :=
  if in_bounds idx (shape a)
  then nth_error (buf a) (N.to_nat (offset idx (strides a)))
  else None.

(** All multi-indices of a shape, in row-major order. *)
Fixpoint indices (s : list N) : list (list N) :=
  match s with
  | [] => [[]]
  | d :: rest =>
      flat_map (fun i => map (cons (N.of_nat i)) (indices rest))
               (seq 0 (N.to_nat d))
  end.

(** [a.ravel()]: the elements in row-major order. *)
Definition ravel (a : ndarray) : list V :=
  flat_map (fun idx => match getitem a idx with
                       | Some v => [v]
                       | None => []
                       end)
           (indices (shape a)).

Fixpoint list_N_eqb (x y : list N) : bool :=
  match x, y with
  | [], [] => true
  | a :: x', b :: y' => (a =? b)%N && list_N_eqb x' y'
  | _, _ => false
  end.

(** [a.reshape(new_shape)]: the sizes must agree; a C-contiguous array is
    reinterpreted in place, any other is flattened first. *)
Definition reshape (a : ndarray) (new_shape : list N) : result ndarray :=
  if (Py.prod new_shape =? Py.prod (shape a))%N
  then Ok (NDArray new_shape (c_strides new_shape) (dtype a)
             (if list_N_eqb (strides a) (c_strides (shape a))
              then buf a else ravel a))
  else Raise ValueError.

Definition normalize_axis (ndim : nat) (ax : Z) : result nat :=
  let n := Z.of_nat ndim in
  let ax' := if (ax <? 0)%Z then (ax + n)%Z else ax in
  if ((0 <=? ax') && (ax' <? n))%Z then Ok (Z.to_nat ax') else Raise ValueError.

Fixpoint nodupb (l : list nat) : bool :=
  match l with
  | [] => true
  | x :: xs => negb (existsb (Nat.eqb x) xs) && nodupb xs
  end.

(** [a.transpose(axes...)]: the axes must be a permutation of the array's
    dimensions; shape and strides are permuted, the buffer is shared. *)
Definition transpose (a : ndarray) (axes : list Z) : result ndarray :=
  if length axes =? length (shape a)
  then
    rbind (rmap (normalize_axis (length (shape a))) axes) (fun axs =>
    if nodupb axs
    then Ok (NDArray (map (fun i => nth i (shape a) 0%N) axs)
                     (map (fun i => nth i (strides a) 0%N) axs)
                     (dtype a) (buf a))
    else Raise ValueError)
  else Raise ValueError.

(** ** Device operations and the kernel *)

(** One positional kernel argument. *)
Inductive karg : Type :=
| KInt (n : N)
| KFlat (data : list V)
| KArray (a : ndarray).

Definition dim3 : Type := (N * N * N)%type.

(** Calls that reach the device, in program order. *)
Inductive device_op : Type :=
| DevZeros (shp : list N) (dt : DType)
| DevAsarray (data : list V)
| DevLaunch (grid block : dim3) (args : list karg).

(** The kernel handle: the device attribute read by [run_kernel], and what
    a launch leaves at each flat position of the results buffer. *)
Record Kernel : Type := {
  max_threads_per_block : N;
  launch : dim3 -> dim3 -> list karg -> nat -> V
}.

Record CamVariant : Type := { cell_encoding_width : N }.
Record CamOp : Type := { is_reduction : bool }.

(** A computation that logs device operations and may raise. *)
Definition Dev (A : Type) : Type := (list device_op * result A)%type.

Definition ret {A} (a : A) : Dev A := ([], Ok a).

Definition bind {A B} (m : Dev A) (f : A -> Dev B) : Dev B :=
  match m with
  | (t, Ok a) => let '(t', r) := f a in (t ++ t', r)
  | (t, Raise e) => (t, Raise e)
  end.

Definition lift {A} (r : result A) : Dev A := ([], r).

Definition raise {A} (e : exn) : Dev A := ([], Raise e).

Variable zero : V.

(** [cp.zeros(shape, dtype=dt)]. *)
Definition cp_zeros (shp : list N) (dt : DType) : Dev ndarray :=
  ([DevZeros shp dt],
   Ok (NDArray shp (c_strides shp) dt (repeat zero (N.to_nat (Py.prod shp))))).

(** [cp.asarray(a.ravel())]. *)
Definition cp_asarray (data : list V) : Dev (list V) :=
  ([DevAsarray data], Ok data).

(** [kernel(dim_grid, dim_block, kernel_args)]: overwrites the buffer of
    [results] in place. *)
Definition call_kernel (kernel : Kernel) (grid block : dim3)
    (args : list karg) (results : ndarray) : Dev ndarray :=
  ([DevLaunch grid block args],
   Ok (NDArray (shape results) (strides results) (dtype results)
         (map (launch kernel grid block args) (seq 0 (length (buf results)))))).

Notation "x <- m ;; k" := (bind m (fun x => k))
  (at level 61, m at next level, right associativity).
Notation "' pat <- m ;; k" := (bind m (fun x => match x with pat => k end))
  (at level 61, pat pattern, m at next level, right associativity).

(** ** [run_kernel] *)

(** The nested function [overhang] (run.py, lines 76-77):
    [shape[: -len(sub_shape)] if sub_shape else shape]. *)
Definition overhang (sub_shape shape : list N) : list N :=
  match sub_shape with
  | [] => shape
  | _ :: _ => Py.slice_stop shape (- Z.of_nat (length sub_shape))
  end.

(** Launch geometry (lines 110-121); returns [(dim_grid, dim_block)]. *)
Definition launch_geometry (threads_per_core max_threads_per_block : N)
    (sub_shape : list N) : result (dim3 * dim3) :=
  let threads_per_block := N.min threads_per_core max_threads_per_block in
  let dim_block := (threads_per_block, 1%N, 1%N) in
  rbind (Py.truediv threads_per_core threads_per_block) (fun q =>
  let dim_grid := (Py.ceil q, Py.prod sub_shape, 1%N) in
  Ok (dim_grid, dim_block)).

(** Kernel argument list (lines 123-138). *)
Definition kernel_arguments (is_red : bool) (inputs cam : ndarray)
    (columns eff_input_rows eff_cam_rows : N) (results : ndarray)
    (reduction_values : option ndarray) : Dev (list karg) :=
  d_inputs <- cp_asarray (ravel inputs) ;;
  d_cam <- cp_asarray (ravel cam) ;;
  let kernel_args :=
    [KFlat d_inputs; KFlat d_cam; KInt columns;
     KInt eff_input_rows; KInt eff_cam_rows; KArray results] in
  if is_red
  then match reduction_values with
       | None => raise AssertionError
       | Some rv =>
           d_values <- cp_asarray (ravel rv) ;;
           ret (kernel_args ++ [KFlat d_values])
       end
  else ret kernel_args.

(** Restoring the caller's shape (lines 166-202). *)
Definition restore_shape (results : ndarray)
    (inputs_outer_shape cam_outer_shape sub_shape super_shape : list N)
    (input_rows cam_rows : N) : result ndarray :=
  if length inputs_outer_shape =? length cam_outer_shape
  then Ok results
  else
    let match_dims := Z.of_nat (length (shape results)) in
    let sub_shape_dims := Z.of_nat (length sub_shape) in
    if length cam_outer_shape <? length inputs_outer_shape
    then
      rbind (reshape results
               (sub_shape ++ overhang sub_shape super_shape
                  ++ [input_rows; cam_rows])) (fun results =>
      transpose results
        (Py.range sub_shape_dims (match_dims - 2)
           ++ Py.range 0 sub_shape_dims
           ++ [match_dims - 2; match_dims - 1])%Z)
    else
      rbind (reshape results
               (sub_shape ++ [input_rows] ++ overhang sub_shape super_shape
                  ++ [cam_rows])) (fun results =>
      transpose results
        (Py.range (sub_shape_dims + 1) (match_dims - 1)
           ++ Py.range 0 sub_shape_dims
           ++ [sub_shape_dims; match_dims - 1])%Z).

Definition run_kernel (kernel : Kernel) (variant : CamVariant) (op : CamOp)
    (inputs cam : ndarray) (result_dtype : DType)
    (reduction_values : option ndarray) : Dev ndarray :=
  input_rows <- lift (Py.index (shape inputs) (-2)) ;;
  cam_rows <- lift (Py.index (shape cam) (-2)) ;;
  cam_cols <- lift (Py.index (shape cam) (-1)) ;;
  columns <- lift (Py.floordiv cam_cols (cell_encoding_width variant)) ;;
  let inputs_outer_shape := Py.slice_stop (shape inputs) (-2) in
  let cam_outer_shape := Py.slice_stop (shape cam) (-2) in
  '(sub_shape, super_shape) <-
    lift (Py.unpack2 (Py.sorted (@length N)
                        [inputs_outer_shape; cam_outer_shape])) ;;
  let inputs_overhang := Py.prod (overhang sub_shape inputs_outer_shape) in
  let cam_overhang := Py.prod (overhang sub_shape cam_outer_shape) in
  let is_red := is_reduction op in
  let results_shape :=
    super_shape ++ (if is_red then [input_rows] else [input_rows; cam_rows]) in
  results <- cp_zeros results_shape result_dtype ;;
  let threads_per_core :=
    (input_rows * inputs_overhang * cam_rows * cam_overhang)%N in
  '(dim_grid, dim_block) <-
    lift (launch_geometry threads_per_core (max_threads_per_block kernel)
            sub_shape) ;;
  kernel_args <-
    kernel_arguments is_red inputs cam columns
      (input_rows * inputs_overhang)%N (cam_rows * cam_overhang)%N
      results reduction_values ;;
  results <- call_kernel kernel dim_grid dim_block kernel_args results ;;
  lift (restore_shape results inputs_outer_shape cam_outer_shape
          sub_shape super_shape input_rows cam_rows).

End Arrays.

Arguments NDArray {V DType} shape strides dtype buf.
Arguments KInt {V DType} n.
Arguments KFlat {V DType} data.
Arguments KArray {V DType} a.
Arguments DevZeros {V DType} shp dt.
Arguments DevAsarray {V DType} data.
Arguments DevLaunch {V DType} grid block args.
Arguments Build_Kernel {V DType} max_threads_per_block launch.

(** ** Vocabulary of the statements

    Names for the intermediate values of [run_kernel], used to state what
    it computes. *)

Section Vocabulary.
Variables (V DType : Type).
Definition sub_of (io co : list N) : list N :=
  if (length io <=? length co)%nat then io else co.
Definition super_of (io co : list N) : list N :=
  if (length io <=? length co)%nat then co else io.
Definition results_shape_of (is_red : bool) (super : list N) (ir cr : N) :=
  super ++ (if is_red then [ir] else [ir; cr]).
Definition fresh_results (zero : V) (rs : list N) (dt : DType) : ndarray V DType :=
  NDArray rs (c_strides rs) dt (repeat zero (N.to_nat (Py.prod rs))).
Definition written (k : Kernel V DType) (g b : dim3) (args : list (karg V DType))
   (results : ndarray V DType) : ndarray V DType :=
  NDArray (shape results) (strides results) (dtype results)
    (map (launch k g b args) (seq 0 (length (buf results)))).
Definition is_launch (o : device_op V DType) : bool :=
  match o with
  | DevLaunch _ _ _ => true
  | _ => false
  end.
Definition base_args (inputs cam : ndarray V DType) (columns eir ecr : N)
    (results : ndarray V DType) : list (karg V DType) :=
  [KFlat (ravel inputs); KFlat (ravel cam); KInt columns; KInt eir; KInt ecr; KArray results].
End Vocabulary.

(** The documented precondition on the two outer shapes: the shorter one
    is a trailing suffix of the longer one. *)
Definition trailing_suffix (sub_shape super_shape : list N) : Prop :=
  exists ovh, super_shape = ovh ++ sub_shape.

Definition exactly_one (P Q : Prop) : Prop := (P /\ ~ Q) \/ (~ P /\ Q).

(** The exact integer ceiling of [a / b]. *)
Definition ceil_div (a b : N) : N := ((a + b - 1) / b)%N.

(** Row-major position of a multi-index in an array of the given shape. *)
Definition ravel_multi_index (shp idx : list N) : N := offset idx (c_strides shp).

Definition physical_inputs_superset (sub ovh : list N) (ir cr : N)
    (o s : list N) (i j : N) : N :=
  ravel_multi_index (sub ++ ovh ++ [ir; cr]) (s ++ o ++ [i; j]).

Definition physical_cam_superset (sub ovh : list N) (ir cr : N)
    (o s : list N) (i j : N) : N :=
  ravel_multi_index (sub ++ [ir] ++ ovh ++ [cr]) (s ++ [i] ++ o ++ [j]).

(** ** Sample operands

    Concrete operands for the scenarios: a kernel that writes [100 + p] at
    flat position [p], and arrays filled with sevens. *)

Definition sample_kernel : Kernel N unit :=
  Build_Kernel 1024%N (fun _ _ _ p => (100 + N.of_nat p)%N).
Definition sample_array (s : list N) : ndarray N unit :=
  NDArray s (c_strides s) tt (repeat 7%N (N.to_nat (Py.prod s))).
Definition plain_op : CamOp := {| is_reduction := false |}.
Definition reduction_op : CamOp := {| is_reduction := true |}.
Definition unit_width : CamVariant := {| cell_encoding_width := 1%N |}.


(** * Properties *)

Local Open Scope N_scope.

(** ** True division and ceiling *)

Section FloatDivision.

Lemma round_half_even_cases (num den : N) :
  den <> 0 ->
  let q := num / den in
  let r := num mod den in
  (Py.round_half_even num den = q /\ 2 * r <= den) \/
  (Py.round_half_even num den = q + 1 /\ den <= 2 * r).
Proof.
  intros Hden q r. unfold Py.round_half_even. fold q r.
  destruct (2 * r <? den) eqn:E1.
  - apply N.ltb_lt in E1. left. split; [reflexivity | lia].
  - apply N.ltb_ge in E1.
    destruct (den <? 2 * r) eqn:E2.
    + right. split; [reflexivity | lia].
    + apply N.ltb_ge in E2. destruct (N.even q); [left | right]; split; auto; lia.
Qed.

(** Rounding a quotient scaled by [p] and taking the ceiling of the result
    divided by [p] again gives the exact ceiling, provided the divisor is
    below [2 * p]. *)
Lemma ceil_round_scaled (a b p : N) :
  1 <= b -> 1 <= a -> 1 <= p -> b < 2 * p ->
  (Py.round_half_even (a * p) b + p - 1) / p = (a + b - 1) / b.
Proof.
  intros Hb Ha Hp Hbp.
  set (c := (a + b - 1) / b).
  assert (Hc : (c - 1) * b < a /\ a <= c * b /\ 1 <= c).
  { unfold c. pose proof (N.div_mod (a + b - 1) b ltac:(lia)) as E.
    pose proof (N.mod_upper_bound (a + b - 1) b ltac:(lia)) as U.
    set (c' := (a + b - 1) / b) in *. set (r' := (a + b - 1) mod b) in *.
    assert (1 <= c') by nia. split; [|split]; nia. }
  destruct Hc as (Hc1 & Hc2 & Hc3).
  pose proof (N.div_mod (a * p) b ltac:(lia)) as E.
  pose proof (N.mod_upper_bound (a * p) b ltac:(lia)) as U.
  pose proof (@round_half_even_cases (a * p) b ltac:(lia)) as R. cbv zeta in R.
  set (q := a * p / b) in *. set (r := (a * p) mod b) in *.
  set (m := Py.round_half_even (a * p) b) in *.
  assert (Hlo : p * (c - 1) + 1 <= m).
  { assert (p * (c - 1) <= q) by nia.
    destruct (N.eq_dec q (p * (c - 1))) as [Eq|Ne].
    - assert (p <= r) by nia.
      destruct R as [[Rm Rr]|[Rm Rr]]; lia.
    - destruct R as [[Rm Rr]|[Rm Rr]]; lia. }
  assert (Hhi : m <= p * c).
  { assert (q <= p * c) by nia.
    destruct (N.eq_dec q (p * c)) as [Eq|Ne].
    - assert (r = 0) by nia.
      destruct R as [[Rm Rr]|[Rm Rr]]; lia.
    - destruct R as [[Rm Rr]|[Rm Rr]]; lia. }
  symmetry. apply N.div_unique with (r := m + p - 1 - p * c); nia.
Qed.

Lemma pow2_pos (n : N) : 1 <= 2 ^ n.
Proof. pose proof (N.pow_nonzero 2 n ltac:(lia)). lia. Qed.

(** The exponent chosen by [truediv] for [1 <= b <= a]: some [l] with
    [b * 2^l <= a]. *)
Lemma ge_scaled_choice (a b : N) :
  1 <= b -> b <= a ->
  let d := (Z.of_N (N.log2 a) - Z.of_N (N.log2 b))%Z in
  let l := if Py.ge_scaled a b d then d else (d - 1)%Z in
  (0 <= l)%Z /\ (l <= Z.of_N (N.log2 a))%Z /\ b * 2 ^ Z.to_N l <= a.
Proof.
  intros Hb Hab d l.
  pose proof (N.log2_le_mono b a Hab) as Hlog.
  destruct (N.log2_spec a ltac:(lia)) as [La Ua].
  destruct (N.log2_spec b ltac:(lia)) as [Lb Ub].
  assert (Hd : (0 <= d)%Z) by (unfold d; lia).
  unfold l, Py.ge_scaled.
  destruct (0 <=? d)%Z eqn:E0; [|apply Z.leb_gt in E0; lia].
  destruct (b * 2 ^ Z.to_N d <=? a) eqn:E1.
  - apply N.leb_le in E1. unfold d in *. repeat split; lia.
  - apply N.leb_gt in E1.
    assert (d <> 0%Z).
    { intros Heq. rewrite Heq in E1. simpl in E1. lia. }
    assert (Hsplit : N.log2 a = N.succ (N.log2 b) + Z.to_N (d - 1)) by (unfold d; lia).
    repeat split; try (unfold d; lia).
    rewrite Hsplit, N.pow_add_r in La.
    pose proof (pow2_pos (Z.to_N (d - 1))). nia.
Qed.

(** For [1 <= b <= a < 2^53] the float quotient followed by [ceil] is the
    exact integer ceiling. *)
Lemma ceil_truediv_exact (a b : N) :
  1 <= b -> b <= a -> a < 2 ^ 53 ->
  exists q, Py.truediv a b = Ok q /\ Py.ceil q = (a + b - 1) / b.
Proof.
  intros Hb Hab Ha.
  pose proof (ge_scaled_choice Hb Hab) as H. cbv zeta in H.
  unfold Py.truediv.
  destruct (b =? 0) eqn:Eb; [apply N.eqb_eq in Eb; lia|].
  destruct (a =? 0) eqn:Ea; [apply N.eqb_eq in Ea; lia|].
  cbv zeta.
  set (d := (Z.of_N (N.log2 a) - Z.of_N (N.log2 b))%Z) in *.
  set (l := if Py.ge_scaled a b d then d else (d - 1)%Z) in *.
  destruct H as (Hl0 & Hl1 & Hl2).
  assert (Hlog : N.log2 a < 53).
  { apply N.log2_lt_pow2; lia. }
  assert (He : Z.max (l - 52) (-1074) = (l - 52)%Z) by lia.
  rewrite He.
  assert (Hle : (l - 52 <= 0)%Z) by lia.
  replace (Z.max 0 (l - 52)) with 0%Z by lia.
  replace (Z.max 0 (- (l - 52))) with (52 - l)%Z by lia.
  destruct (0 <? l - 52)%Z eqn:E0; [apply Z.ltb_lt in E0; lia|].
  simpl andb. cbv iota.
  eexists. split; [reflexivity|].
  change (2 ^ Z.to_N 0) with 1. rewrite N.mul_1_r.
  set (p := 2 ^ Z.to_N (52 - l)).
  assert (Hp : 1 <= p) by apply pow2_pos.
  assert (Hbp : b < 2 * p).
  { assert (E : 2 ^ 53 = 2 * (2 ^ Z.to_N l * p)).
    { unfold p. rewrite <- N.pow_add_r, <- N.pow_succ_r'. f_equal. lia. }
    rewrite E in Ha. pose proof (pow2_pos (Z.to_N l)). nia. }
  pose proof (@ceil_round_scaled a b p Hb ltac:(lia) Hp Hbp) as C.
  unfold Py.ceil. cbn [Py.mant Py.expo].
  destruct (0 <=? l - 52)%Z eqn:E1.
  - apply Z.leb_le in E1.
    assert (Hp1 : p = 1) by (unfold p; replace (52 - l)%Z with 0%Z by lia; reflexivity).
    replace (l - 52)%Z with 0%Z by lia.
    change (2 ^ Z.to_N 0) with 1. rewrite N.mul_1_r.
    clearbody p. subst p. rewrite N.mul_1_r in *. rewrite N.div_1_r in C. lia.
  - replace (- (l - 52))%Z with (52 - l)%Z by lia. fold p. exact C.
Qed.

End FloatDivision.

(** ** Tuples, slices and the overhang *)

Section PythonTuples.

Variable A : Type.

Lemma index_penultimate (o : list A) (r c : A) :
  Py.index (o ++ [r; c]) (-2) = Ok r.
Proof.
  unfold Py.index. rewrite length_app. cbn [length].
  change (-2 <? 0)%Z with true. cbv iota.
  replace (-2 + Z.of_nat (length o + 2))%Z with (Z.of_nat (length o)) by lia.
  destruct ((0 <=? Z.of_nat (length o)) && (Z.of_nat (length o) <? Z.of_nat (length o + 2)))%Z eqn:E.
  - rewrite Nat2Z.id, nth_error_app2, Nat.sub_diag by lia. reflexivity.
  - apply andb_false_iff in E. destruct E as [E|E]; [apply Z.leb_gt in E | apply Z.ltb_ge in E]; lia.
Qed.

Lemma index_last (o : list A) (r c : A) :
  Py.index (o ++ [r; c]) (-1) = Ok c.
Proof.
  unfold Py.index. rewrite length_app. cbn [length].
  change (-1 <? 0)%Z with true. cbv iota.
  replace (-1 + Z.of_nat (length o + 2))%Z with (Z.of_nat (S (length o))) by lia.
  destruct ((0 <=? Z.of_nat (S (length o))) && (Z.of_nat (S (length o)) <? Z.of_nat (length o + 2)))%Z eqn:E.
  - rewrite Nat2Z.id, nth_error_app2 by lia.
    replace (S (length o) - length o)%nat with 1%nat by lia. reflexivity.
  - apply andb_false_iff in E. destruct E as [E|E]; [apply Z.leb_gt in E | apply Z.ltb_ge in E]; lia.
Qed.

Lemma slice_stop_outer (o : list A) (r c : A) :
  Py.slice_stop (o ++ [r; c]) (-2) = o.
Proof.
  unfold Py.slice_stop. rewrite length_app. cbn [length].
  change (-2 <? 0)%Z with true. cbv iota.
  replace (Z.to_nat (Z.max (-2 + Z.of_nat (length o + 2)) 0)) with (length o + 0)%nat by lia.
  rewrite firstn_app_2. simpl. apply app_nil_r.
Qed.

(** [t[:-n]] for [n > 0] drops the last [n] elements (all of them when
    [t] is shorter). *)
Lemma slice_stop_neg (t : list A) (n : nat) :
  (0 < n)%nat ->
  Py.slice_stop t (- Z.of_nat n) = firstn (length t - n) t.
Proof.
  intros Hn. unfold Py.slice_stop.
  destruct (- Z.of_nat n <? 0)%Z eqn:E; [|apply Z.ltb_ge in E; lia].
  f_equal. lia.
Qed.

Lemma sorted_pair (key : A -> nat) (x y : A) :
  Py.sorted key [x; y] = if (key x <=? key y)%nat then [x; y] else [y; x].
Proof. reflexivity. Qed.

End PythonTuples.

Lemma overhang_firstn (sub_shape shape : list N) :
  overhang sub_shape shape = firstn (length shape - length sub_shape) shape.
Proof.
  destruct sub_shape as [|d sub].
  - simpl. rewrite Nat.sub_0_r, firstn_all. reflexivity.
  - unfold overhang. apply slice_stop_neg. simpl. lia.
Qed.

Lemma overhang_suffix (ovh sub_shape : list N) :
  overhang sub_shape (ovh ++ sub_shape) = ovh.
Proof.
  rewrite overhang_firstn, length_app.
  replace (length ovh + length sub_shape - length sub_shape)%nat with (length ovh + 0)%nat by lia.
  rewrite firstn_app_2. simpl. apply app_nil_r.
Qed.

Lemma overhang_self (sub_shape : list N) : overhang sub_shape sub_shape = [].
Proof. rewrite overhang_firstn, Nat.sub_diag. reflexivity. Qed.

Lemma prod_app (s t : list N) : Py.prod (s ++ t) = Py.prod s * Py.prod t.
Proof.
  induction s as [|d s IH]; simpl.
  - destruct (Py.prod t); reflexivity.
  - unfold Py.prod in *. simpl. rewrite IH. lia.
Qed.

(** ** Strides, offsets and axes *)

Section Strides.

Lemma list_N_eqb_refl (x : list N) : list_N_eqb x x = true.
Proof. induction x; simpl; [reflexivity|]. rewrite N.eqb_refl. exact IHx. Qed.

Lemma c_strides_length (s : list N) : length (c_strides s) = length s.
Proof. induction s; simpl; congruence. Qed.

Lemma c_strides_app (s t : list N) :
  c_strides (s ++ t) = map (N.mul (Py.prod t)) (c_strides s) ++ c_strides t.
Proof.
  induction s as [|d s IH]; simpl; [reflexivity|].
  rewrite IH, prod_app, (N.mul_comm (Py.prod s)). reflexivity.
Qed.

Lemma offset_app (i1 i2 s1 s2 : list N) :
  length i1 = length s1 ->
  offset (i1 ++ i2) (s1 ++ s2) = offset i1 s1 + offset i2 s2.
Proof.
  revert s1. induction i1 as [|i i1 IH]; intros [|s s1] H; simpl in *; try discriminate.
  - reflexivity.
  - rewrite IH by congruence. lia.
Qed.

Lemma offset_scaled (c : N) (idx strd : list N) :
  offset idx (map (N.mul c) strd) = c * offset idx strd.
Proof.
  revert strd. induction idx as [|i idx IH]; intros [|s strd]; simpl; try lia.
  rewrite IH. lia.
Qed.

Lemma in_bounds_length (idx shp : list N) :
  in_bounds idx shp = true -> length idx = length shp.
Proof.
  revert shp. induction idx as [|i idx IH]; intros [|d shp] H; simpl in *; try discriminate.
  - reflexivity.
  - apply andb_prop in H. f_equal. apply IH, H.
Qed.

Lemma in_bounds_app (i1 i2 s1 s2 : list N) :
  length i1 = length s1 ->
  in_bounds (i1 ++ i2) (s1 ++ s2) = in_bounds i1 s1 && in_bounds i2 s2.
Proof.
  revert s1. induction i1 as [|i i1 IH]; intros [|s s1] H; simpl in *; try discriminate.
  - reflexivity.
  - rewrite IH by congruence. apply andb_assoc.
Qed.

(** A multi-index inside a shape lands inside the flat buffer. *)
Lemma offset_lt (idx shp : list N) :
  in_bounds idx shp = true -> offset idx (c_strides shp) < Py.prod shp.
Proof.
  revert shp. induction idx as [|i idx IH]; intros [|d shp] H; simpl in *; try discriminate.
  - lia.
  - apply andb_prop in H. destruct H as [Hi Hr]. apply N.ltb_lt in Hi.
    specialize (IH _ Hr). unfold Py.prod in *. simpl. nia.
Qed.

(** Along dimensions of extent one the only index is zero and it does
    not move the offset. *)
Lemma offset_unit_dims (idx shp strd : list N) :
  Forall (fun d => d = 1) shp -> in_bounds idx shp = true ->
  offset idx strd = 0.
Proof.
  intros Hall. revert idx strd.
  induction Hall as [|d shp Hd Hall IH]; intros [|i idx] strd H; simpl in *; try discriminate.
  - reflexivity.
  - destruct strd as [|s strd]; [reflexivity|].
    apply andb_prop in H. destruct H as [Hi Hr]. apply N.ltb_lt in Hi.
    rewrite (IH _ strd Hr). lia.
Qed.

Lemma prod_unit_dims (shp : list N) :
  Forall (fun d => d = 1) shp -> Py.prod shp = 1.
Proof.
  induction 1 as [|d shp Hd Hall IH]; [reflexivity|].
  unfold Py.prod in *. simpl. rewrite IH. lia.
Qed.

End Strides.

Section Axes.

Variable A : Type.

(** Reading a middle segment of a list through its positions. *)
Lemma map_nth_segment (p b q : list A) (d : A) :
  map (fun i => nth i (p ++ b ++ q) d) (seq (length p) (length b)) = b.
Proof.
  revert p. induction b as [|x b IH]; intros p; [reflexivity|].
  cbn [length seq map]. f_equal.
  - apply nth_middle.
  - specialize (IH (p ++ [x])).
    rewrite <- app_assoc in IH. cbn [app] in IH.
    rewrite length_app in IH. cbn [length] in IH.
    rewrite Nat.add_1_r in IH. exact IH.
Qed.

Lemma map_nth_prefix (b q : list A) (d : A) :
  map (fun i => nth i (b ++ q) d) (seq 0 (length b)) = b.
Proof. exact (map_nth_segment [] b q d). Qed.

End Axes.

Lemma range_of_nat (a b : nat) :
  Py.range (Z.of_nat a) (Z.of_nat b) = map Z.of_nat (seq a (b - a)).
Proof.
  unfold Py.range.
  replace (Z.to_nat (Z.of_nat b - Z.of_nat a)) with (b - a)%nat by lia.
  generalize (b - a)%nat as n. intros n.
  replace (seq a n) with (seq (a + 0) n) by (f_equal; lia).
  generalize 0%nat as s. induction n as [|n IH]; intros s; [reflexivity|].
  cbn [seq map]. f_equal; [lia|].
  rewrite IH. f_equal. f_equal. lia.
Qed.

Lemma nodupb_NoDup (l : list nat) : NoDup l -> nodupb l = true.
Proof.
  induction 1 as [|x l Hx Hnd IH]; [reflexivity|].
  simpl. rewrite IH, andb_true_r.
  destruct (existsb (Nat.eqb x) l) eqn:E; [|reflexivity].
  apply existsb_exists in E. destruct E as (y & Hy & Exy).
  apply Nat.eqb_eq in Exy. subst y. contradiction.
Qed.

Lemma rmap_normalize_axis (ndim : nat) (axs : list nat) :
  Forall (fun i => (i < ndim)%nat) axs ->
  rmap (normalize_axis ndim) (map Z.of_nat axs) = Ok axs.
Proof.
  induction 1 as [|i axs Hi Hall IH]; [reflexivity|].
  cbn [map rmap]. rewrite IH.
  unfold normalize_axis.
  destruct (Z.of_nat i <? 0)%Z eqn:E0; [apply Z.ltb_lt in E0; lia|].
  destruct ((0 <=? Z.of_nat i) && (Z.of_nat i <? Z.of_nat ndim))%Z eqn:E1.
  - simpl. rewrite Nat2Z.id. reflexivity.
  - apply andb_false_iff in E1.
    destruct E1 as [E1|E1]; [apply Z.leb_gt in E1|apply Z.ltb_ge in E1]; lia.
Qed.

Section Transpose.

Variables (V DType : Type).

(** [transpose] along a duplicate-free list of valid axes. *)
Lemma transpose_permutation (a : ndarray V DType) (axs : list nat) :
  length axs = length (shape a) ->
  Forall (fun i => (i < length (shape a))%nat) axs ->
  NoDup axs ->
  transpose a (map Z.of_nat axs) =
  Ok (NDArray (map (fun i => nth i (shape a) 0) axs)
              (map (fun i => nth i (strides a) 0) axs)
              (dtype a) (buf a)).
Proof.
  intros Hlen Hall Hnd. unfold transpose.
  rewrite length_map, Hlen, Nat.eqb_refl.
  rewrite (rmap_normalize_axis Hall). cbn [rbind].
  rewrite (nodupb_NoDup Hnd). reflexivity.
Qed.

End Transpose.

Ltac solve_axes :=
  repeat match goal with
  | |- NoDup (_ ++ _) => apply NoDup_app
  | |- NoDup (seq _ _) => apply seq_NoDup
  | |- NoDup (_ :: _) => constructor
  | |- NoDup [] => constructor
  | |- Forall _ (_ ++ _) => apply Forall_app; split
  | |- Forall _ (_ :: _) => constructor
  | |- Forall _ [] => constructor
  | |- Forall _ (seq _ _) => apply Forall_forall; intros ? ?
  | |- forall _, _ => intro
  | |- ~ _ => intro
  | H : In _ (_ ++ _) |- _ => apply in_app_or in H; destruct H
  | H : In _ (seq _ _) |- _ => apply in_seq in H
  | H : In _ (_ :: _) |- _ => destruct H
  | H : In _ [] |- _ => destruct H
  end; try lia.

Section BlockPermutations.

Variable A : Type.
Variables (p b : list A) (x y d : A) (k n : nat).
Hypothesis Hk : length p = k.
Hypothesis Hn : length b = n.

(** Case 2 order: the middle block first, then the leading block, the
    last two positions kept. *)
Lemma permute_inputs_superset :
  map (fun i => nth i (p ++ b ++ [x; y]) d)
      (seq k n ++ seq 0 k ++ [k + n; k + n + 1])%nat
  = b ++ p ++ [x; y].
Proof.
  rewrite !map_app. subst k n.
  rewrite map_nth_segment, map_nth_prefix. cbn [map].
  rewrite !app_assoc, <- length_app.
  rewrite nth_middle.
  replace (length (p ++ b) + 1)%nat with (length ((p ++ b) ++ [x])) by (rewrite length_app; reflexivity).
  change ((p ++ b) ++ [x; y]) with ((p ++ b) ++ [x] ++ [y]).
  rewrite (app_assoc (p ++ b) [x] [y]), nth_middle. reflexivity.
Qed.

(** Case 3 order: the block behind [x] first, then the leading block,
    then [x], the last position kept. *)
Lemma permute_cam_superset :
  map (fun i => nth i (p ++ [x] ++ b ++ [y]) d)
      (seq (k + 1) n ++ seq 0 k ++ [k; k + 1 + n])%nat
  = b ++ p ++ [x; y].
Proof.
  rewrite !map_app. subst k n.
  rewrite map_nth_prefix. cbn [map].
  change (p ++ [x] ++ b ++ [y]) with (p ++ x :: (b ++ [y])).
  rewrite (nth_middle p (b ++ [y]) x d).
  change (p ++ x :: (b ++ [y])) with (p ++ [x] ++ b ++ [y]).
  replace (length p + 1)%nat with (length (p ++ [x])) by (rewrite length_app; reflexivity).
  rewrite (app_assoc p [x] (b ++ [y])).
  rewrite map_nth_segment.
  replace (length (p ++ [x]) + length b)%nat with (length ((p ++ [x]) ++ b)) by (rewrite !length_app; reflexivity).
  rewrite (app_assoc (p ++ [x]) b [y]).
  change (((p ++ [x]) ++ b) ++ [y]) with (((p ++ [x]) ++ b) ++ y :: []).
  rewrite nth_middle. reflexivity.
Qed.

End BlockPermutations.

Lemma axes_inputs_superset_valid (k n : nat) :
  NoDup (seq k n ++ seq 0 k ++ [k + n; k + n + 1])%nat /\
  Forall (fun i => i < k + n + 2)%nat (seq k n ++ seq 0 k ++ [k + n; k + n + 1])%nat.
Proof. split; solve_axes. Qed.

Lemma axes_cam_superset_valid (k n : nat) :
  NoDup (seq (k + 1) n ++ seq 0 k ++ [k; k + 1 + n])%nat /\
  Forall (fun i => i < k + n + 2)%nat (seq (k + 1) n ++ seq 0 k ++ [k; k + 1 + n])%nat.
Proof. split; solve_axes. Qed.

(** ** [run_kernel] case by case *)

Section RunKernel.
Variables (V DType : Type) (zero : V).
Variables (kernel : Kernel V DType) (variant : CamVariant) (op : CamOp).
Variables (inputs cam : ndarray V DType) (dt : DType) (rv : option (ndarray V DType)).
Variables (io co : list N) (ir ic cr cc : N).
Hypothesis Hin : shape inputs = io ++ [ir; ic].
Hypothesis Hcam : shape cam = co ++ [cr; cc].

Let sub := sub_of io co.
Let super := super_of io co.
Let eir := ir * Py.prod (overhang sub io).
Let ecr := cr * Py.prod (overhang sub co).
Let tpc := ir * Py.prod (overhang sub io) * cr * Py.prod (overhang sub co).
Let rs := results_shape_of (is_reduction op) super ir cr.
Let results := fresh_results zero rs dt.
Let base := base_args inputs cam (cc / cell_encoding_width variant) eir ecr results.

Lemma run_kernel_eq :
  run_kernel zero kernel variant op inputs cam dt rv =
  if cell_encoding_width variant =? 0 then ([], Raise ZeroDivisionError)
  else
    match launch_geometry tpc (max_threads_per_block kernel) sub with
    | Raise e => ([DevZeros rs dt], Raise e)
    | Ok (g, b) =>
        if is_reduction op
        then match rv with
             | None =>
                 ([DevZeros rs dt; DevAsarray (ravel inputs);
                   DevAsarray (ravel cam)], Raise AssertionError)
             | Some a =>
                 let args := base ++ [KFlat (ravel a)] in
                 ([DevZeros rs dt; DevAsarray (ravel inputs);
                   DevAsarray (ravel cam); DevAsarray (ravel a);
                   DevLaunch g b args],
                  restore_shape (written kernel g b args results)
                    io co sub super ir cr)
             end
        else
          ([DevZeros rs dt; DevAsarray (ravel inputs);
            DevAsarray (ravel cam); DevLaunch g b base],
           restore_shape (written kernel g b base results)
             io co sub super ir cr)
    end.
Proof.
  unfold run_kernel. rewrite Hin, Hcam.
  rewrite !index_penultimate, !index_last, !slice_stop_outer.
  unfold Py.floordiv.
  destruct (cell_encoding_width variant =? 0); [reflexivity|].
  rewrite sorted_pair.
  subst sub super eir ecr tpc rs results base.
  unfold sub_of, super_of.
  destruct (length io <=? length co)%nat;
    cbn [lift bind Py.unpack2 cp_zeros app];
    (destruct (launch_geometry _ _ _) as [[g b]|e]; [|reflexivity]);
    unfold kernel_arguments;
    (destruct (is_reduction op); [destruct rv|]); reflexivity.
Qed.

End RunKernel.

(** ** Restoring the caller's shape *)

Section Restore.

Variables (V DType : Type).
Variables (ovh sub : list N) (ir cr : N) (dt : DType) (b : list V).
Hypothesis Hovh : ovh <> [].

Let results : ndarray V DType :=
  NDArray ((ovh ++ sub) ++ [ir; cr]) (c_strides ((ovh ++ sub) ++ [ir; cr])) dt b.

Lemma restore_shape_inputs_superset :
  restore_shape results (ovh ++ sub) sub sub (ovh ++ sub) ir cr =
  Ok (NDArray (ovh ++ sub ++ [ir; cr])
        (map (N.mul (Py.prod [ir; cr])) (c_strides ovh)
           ++ map (N.mul (Py.prod (ovh ++ [ir; cr]))) (c_strides sub)
           ++ c_strides [ir; cr])
        dt b).
Proof.
  assert (Hn : (0 < length ovh)%nat) by (destruct ovh; [congruence | simpl; lia]).
  unfold restore_shape, results. cbn [shape].
  rewrite !length_app. cbn [length].
  destruct (length ovh + length sub =? length sub)%nat eqn:E1;
    [apply Nat.eqb_eq in E1; lia|].
  destruct (length sub <? length ovh + length sub)%nat eqn:E2;
    [|apply Nat.ltb_ge in E2; lia].
  rewrite overhang_suffix. unfold reshape. cbn [shape strides dtype buf].
  replace (Py.prod (sub ++ ovh ++ [ir; cr]) =? Py.prod ((ovh ++ sub) ++ [ir; cr]))
    with true by (symmetry; apply N.eqb_eq; rewrite !prod_app; lia).
  rewrite list_N_eqb_refl. cbn [rbind].
  set (k := length sub). set (n := length ovh).
  replace (Z.of_nat (n + k + 2) - 2)%Z with (Z.of_nat (k + n)) by lia.
  replace (Z.of_nat (n + k + 2) - 1)%Z with (Z.of_nat (k + n + 1)) by lia.
  change 0%Z with (Z.of_nat 0).
  rewrite !range_of_nat.
  replace (k + n - k)%nat with n by lia. rewrite Nat.sub_0_r.
  change [Z.of_nat (k + n); Z.of_nat (k + n + 1)]
    with (map Z.of_nat [k + n; k + n + 1]%nat).
  rewrite <- !map_app.
  destruct (axes_inputs_superset_valid k n) as [Hnd Hall].
  rewrite transpose_permutation; cbn [shape strides dtype buf].
  - f_equal. f_equal.
    + apply permute_inputs_superset; reflexivity.
    + rewrite c_strides_app, (c_strides_app ovh).
      apply permute_inputs_superset; rewrite length_map, c_strides_length; reflexivity.
  - rewrite !length_app, !length_seq. cbn [length]. unfold k, n. lia.
  - rewrite !length_app. cbn [length]. fold k n.
    eapply Forall_impl; [|exact Hall]. cbv beta. intros; lia.
  - exact Hnd.
Qed.

Let results3 : ndarray V DType :=
  NDArray ((ovh ++ sub) ++ [ir; cr]) (c_strides ((ovh ++ sub) ++ [ir; cr])) dt b.

Lemma restore_shape_cam_superset :
  restore_shape results3 sub (ovh ++ sub) sub (ovh ++ sub) ir cr =
  Ok (NDArray (ovh ++ sub ++ [ir; cr])
        (map (N.mul (Py.prod [cr])) (c_strides ovh)
           ++ map (N.mul (Py.prod ([ir] ++ ovh ++ [cr]))) (c_strides sub)
           ++ [Py.prod (ovh ++ [cr]); Py.prod []])
        dt b).
Proof.
  assert (Hn : (0 < length ovh)%nat) by (destruct ovh; [congruence | simpl; lia]).
  unfold restore_shape, results3. cbn [shape].
  rewrite !length_app. cbn [length].
  destruct (length sub =? length ovh + length sub)%nat eqn:E1;
    [apply Nat.eqb_eq in E1; lia|].
  destruct (length ovh + length sub <? length sub)%nat eqn:E2;
    [apply Nat.ltb_lt in E2; lia|].
  rewrite overhang_suffix. unfold reshape. cbn [shape strides dtype buf].
  replace (Py.prod (sub ++ [ir] ++ ovh ++ [cr]) =? Py.prod ((ovh ++ sub) ++ [ir; cr]))
    with true
    by (symmetry; apply N.eqb_eq; rewrite !prod_app;
        change (Py.prod [ir; cr]) with (ir * Py.prod [cr]);
        change (Py.prod [ir]) with (ir * 1); lia).
  rewrite list_N_eqb_refl. cbn [rbind].
  set (k := length sub). set (n := length ovh).
  replace (Z.of_nat k + 1)%Z with (Z.of_nat (k + 1)) by lia.
  replace (Z.of_nat (n + k + 2) - 1)%Z with (Z.of_nat (k + 1 + n)) by lia.
  change 0%Z with (Z.of_nat 0).
  rewrite !range_of_nat.
  replace (k + 1 + n - (k + 1))%nat with n by lia. rewrite Nat.sub_0_r.
  change [Z.of_nat k; Z.of_nat (k + 1 + n)]
    with (map Z.of_nat [k; k + 1 + n]%nat).
  rewrite <- !map_app.
  destruct (axes_cam_superset_valid k n) as [Hnd Hall].
  rewrite transpose_permutation; cbn [shape strides dtype buf].
  - f_equal. f_equal.
    + apply permute_cam_superset; reflexivity.
    + rewrite c_strides_app.
      change (c_strides ([ir] ++ ovh ++ [cr]))
        with ([Py.prod (ovh ++ [cr])] ++ c_strides (ovh ++ [cr])).
      rewrite (c_strides_app ovh).
      change (c_strides [cr]) with [Py.prod []].
      apply permute_cam_superset; rewrite length_map, c_strides_length; reflexivity.
  - rewrite !length_app, !length_seq. cbn [length]. unfold k, n. lia.
  - rewrite !length_app. cbn [length]. fold k n.
    eapply Forall_impl; [|exact Hall]. cbv beta. intros; lia.
  - exact Hnd.
Qed.

End Restore.

Lemma nth_error_tabulate (A : Type) (f : nat -> A) (len p : nat) :
  (p < len)%nat -> nth_error (map f (seq 0 len)) p = Some (f p).
Proof.
  intros H. rewrite nth_error_map, nth_error_seq.
  apply Nat.ltb_lt in H. rewrite H. reflexivity.
Qed.

Section Lookup.

Variables (V DType : Type).
Variables (ovh sub : list N) (ir cr : N) (dt : DType) (f : nat -> V).
Variables (o s : list N) (i j : N).
Hypothesis Ho : in_bounds o ovh = true.
Hypothesis Hs : in_bounds s sub = true.
Hypothesis Hi : i < ir.
Hypothesis Hj : j < cr.

Let len := N.to_nat (Py.prod ((ovh ++ sub) ++ [ir; cr])).

Lemma in_bounds_pair : in_bounds [i; j] [ir; cr] = true.
Proof.
  simpl. apply N.ltb_lt in Hi, Hj. rewrite Hi, Hj. reflexivity.
Qed.

Lemma getitem_inputs_superset :
  getitem
    (NDArray (ovh ++ sub ++ [ir; cr])
       (map (N.mul (Py.prod [ir; cr])) (c_strides ovh)
          ++ map (N.mul (Py.prod (ovh ++ [ir; cr]))) (c_strides sub)
          ++ c_strides [ir; cr])
       dt (map f (seq 0 len)))
    (o ++ s ++ [i; j])
  = Some (f (N.to_nat (physical_inputs_superset sub ovh ir cr o s i j))).
Proof.
  pose proof (in_bounds_length _ _ Ho) as Lo.
  pose proof (in_bounds_length _ _ Hs) as Ls.
  pose proof in_bounds_pair as Hp.
  unfold getitem. cbn [shape strides buf].
  rewrite !in_bounds_app, Ho, Hs, Hp by assumption. cbn [andb].
  assert (Hphys : in_bounds (s ++ o ++ [i; j]) (sub ++ ovh ++ [ir; cr]) = true).
  { rewrite !in_bounds_app, Ho, Hs, Hp by assumption. reflexivity. }
  apply offset_lt in Hphys.
  assert (E : offset (o ++ s ++ [i; j])
                (map (N.mul (Py.prod [ir; cr])) (c_strides ovh)
                   ++ map (N.mul (Py.prod (ovh ++ [ir; cr]))) (c_strides sub)
                   ++ c_strides [ir; cr])
              = physical_inputs_superset sub ovh ir cr o s i j).
  { unfold physical_inputs_superset, ravel_multi_index.
    rewrite c_strides_app, (c_strides_app ovh).
    rewrite !offset_app by (rewrite ?length_map, ?c_strides_length; assumption).
    lia. }
  rewrite E. apply nth_error_tabulate.
  unfold physical_inputs_superset, ravel_multi_index, len.
  rewrite !prod_app in *. lia.
Qed.

Lemma getitem_cam_superset :
  getitem
    (NDArray (ovh ++ sub ++ [ir; cr])
       (map (N.mul (Py.prod [cr])) (c_strides ovh)
          ++ map (N.mul (Py.prod ([ir] ++ ovh ++ [cr]))) (c_strides sub)
          ++ [Py.prod (ovh ++ [cr]); Py.prod []])
       dt (map f (seq 0 len)))
    (o ++ s ++ [i; j])
  = Some (f (N.to_nat (physical_cam_superset sub ovh ir cr o s i j))).
Proof.
  pose proof (in_bounds_length _ _ Ho) as Lo.
  pose proof (in_bounds_length _ _ Hs) as Ls.
  pose proof in_bounds_pair as Hp.
  assert (Hi' : in_bounds [i] [ir] = true)
    by (simpl; apply N.ltb_lt in Hi; rewrite Hi; reflexivity).
  assert (Hj' : in_bounds [j] [cr] = true)
    by (simpl; apply N.ltb_lt in Hj; rewrite Hj; reflexivity).
  unfold getitem. cbn [shape strides buf].
  rewrite !in_bounds_app, Ho, Hs, Hp by assumption. cbn [andb].
  assert (Hphys : in_bounds (s ++ [i] ++ o ++ [j]) (sub ++ [ir] ++ ovh ++ [cr]) = true).
  { rewrite !in_bounds_app, Ho, Hs, Hi', Hj' by (assumption || reflexivity). reflexivity. }
  apply offset_lt in Hphys.
  assert (E : offset (o ++ s ++ [i; j])
                (map (N.mul (Py.prod [cr])) (c_strides ovh)
                   ++ map (N.mul (Py.prod ([ir] ++ ovh ++ [cr]))) (c_strides sub)
                   ++ [Py.prod (ovh ++ [cr]); Py.prod []])
              = physical_cam_superset sub ovh ir cr o s i j).
  { unfold physical_cam_superset, ravel_multi_index.
    rewrite c_strides_app.
    change (c_strides ([ir] ++ ovh ++ [cr]))
      with ([Py.prod (ovh ++ [cr])] ++ c_strides (ovh ++ [cr])).
    rewrite (c_strides_app ovh).
    change (c_strides [cr]) with [Py.prod []].
    rewrite !offset_app
      by (rewrite ?length_map, ?c_strides_length; (assumption || reflexivity)).
    simpl offset. lia. }
  rewrite E. apply nth_error_tabulate.
  unfold physical_cam_superset, ravel_multi_index, len.
  rewrite !prod_app in *.
  change (Py.prod [ir; cr]) with (ir * Py.prod [cr]).
  change (Py.prod [ir]) with (ir * 1) in Hphys. lia.
Qed.

(** When every overhang dimension is one, the physical position is the
    row-major position of the logical index in the final shape. *)
Lemma physical_inputs_superset_unit :
  Forall (fun d => d = 1) ovh ->
  physical_inputs_superset sub ovh ir cr o s i j
  = ravel_multi_index (ovh ++ sub ++ [ir; cr]) (o ++ s ++ [i; j]).
Proof.
  intros Hall.
  pose proof (in_bounds_length _ _ Ho) as Lo.
  pose proof (in_bounds_length _ _ Hs) as Ls.
  unfold physical_inputs_superset, ravel_multi_index.
  rewrite c_strides_app, (c_strides_app ovh), c_strides_app, (c_strides_app sub).
  rewrite !offset_app by (rewrite ?length_map, ?c_strides_length; assumption).
  rewrite !(fun strd => @offset_unit_dims o ovh strd Hall Ho).
  rewrite !offset_scaled, !prod_app, (prod_unit_dims Hall). lia.
Qed.

Lemma physical_cam_superset_unit :
  Forall (fun d => d = 1) ovh ->
  physical_cam_superset sub ovh ir cr o s i j
  = ravel_multi_index (ovh ++ sub ++ [ir; cr]) (o ++ s ++ [i; j]).
Proof.
  intros Hall.
  pose proof (in_bounds_length _ _ Ho) as Lo.
  pose proof (in_bounds_length _ _ Hs) as Ls.
  unfold physical_cam_superset, ravel_multi_index.
  rewrite c_strides_app.
  change (c_strides ([ir] ++ ovh ++ [cr]))
    with ([Py.prod (ovh ++ [cr])] ++ c_strides (ovh ++ [cr])).
  rewrite (c_strides_app ovh), c_strides_app, (c_strides_app sub).
  rewrite !offset_app
    by (rewrite ?length_map, ?c_strides_length; (assumption || reflexivity)).
  rewrite !(fun strd => @offset_unit_dims o ovh strd Hall Ho).
  rewrite !offset_scaled, !prod_app, (prod_unit_dims Hall).
  cbn [offset c_strides]. unfold Py.prod. cbn [fold_right]. lia.
Qed.

End Lookup.

(** ** Shape analysis *)

Lemma sorted_outer_shapes (io co : list N) :
  Py.unpack2 (Py.sorted (@length N) [io; co]) = Ok (sub_of io co, super_of io co).
Proof.
  rewrite sorted_pair. unfold sub_of, super_of.
  destruct (length io <=? length co)%nat; reflexivity.
Qed.

Lemma sub_super_length (io co : list N) :
  (length (sub_of io co) <= length (super_of io co))%nat.
Proof.
  unfold sub_of, super_of.
  destruct (length io <=? length co)%nat eqn:E;
    [apply Nat.leb_le in E | apply Nat.leb_gt in E]; lia.
Qed.

(** C7. [overhang(shape)] is [shape] without its last [len(sub_shape)]
    elements, it is [shape] itself when [sub_shape] is empty, and for the
    longer outer shape [len(sub_shape) + len(overhang(super_shape))]
    equals [len(super_shape)]. *)
Theorem overhang_drops_trailing_sub_shape
    (inputs_outer_shape cam_outer_shape : list N) :
  exists sub_shape super_shape,
    Py.unpack2 (Py.sorted (@length N) [inputs_outer_shape; cam_outer_shape])
      = Ok (sub_shape, super_shape)
    /\ (length sub_shape <= length super_shape)%nat
    /\ (forall shape,
          overhang sub_shape shape
          = firstn (length shape - length sub_shape) shape)
    /\ (sub_shape = [] -> forall shape, overhang sub_shape shape = shape)
    /\ (length sub_shape + length (overhang sub_shape super_shape)
        = length super_shape)%nat.
Proof.
  exists (sub_of inputs_outer_shape cam_outer_shape),
         (super_of inputs_outer_shape cam_outer_shape).
  pose proof (sub_super_length inputs_outer_shape cam_outer_shape) as Hle.
  split; [apply sorted_outer_shapes|].
  split; [exact Hle|].
  split; [intros shape; apply overhang_firstn|].
  split.
  - intros E shape. rewrite E. reflexivity.
  - rewrite overhang_firstn, length_firstn. lia.
Qed.

(** C8, as amended. At least one of the two overhang factors equals 1:
    the stack with the shorter outer shape has an empty overhang.  Both
    equal 1 when the two outer shapes have the same length, and in general
    exactly when the overhang of the longer outer shape has product 1;
    otherwise exactly one of them equals 1. *)
Theorem overhang_factor_one (inputs_outer_shape cam_outer_shape : list N) :
  exists sub_shape super_shape,
    Py.unpack2 (Py.sorted (@length N) [inputs_outer_shape; cam_outer_shape])
      = Ok (sub_shape, super_shape)
    /\ (Py.prod (overhang sub_shape inputs_outer_shape) = 1
        \/ Py.prod (overhang sub_shape cam_outer_shape) = 1)
    /\ (length inputs_outer_shape = length cam_outer_shape ->
        Py.prod (overhang sub_shape inputs_outer_shape) = 1
        /\ Py.prod (overhang sub_shape cam_outer_shape) = 1)
    /\ (Py.prod (overhang sub_shape inputs_outer_shape) = 1
        /\ Py.prod (overhang sub_shape cam_outer_shape) = 1
        <-> Py.prod (overhang sub_shape super_shape) = 1)
    /\ (Py.prod (overhang sub_shape super_shape) <> 1 ->
        exactly_one (Py.prod (overhang sub_shape inputs_outer_shape) = 1)
                    (Py.prod (overhang sub_shape cam_outer_shape) = 1)).
Proof.
  exists (sub_of inputs_outer_shape cam_outer_shape),
         (super_of inputs_outer_shape cam_outer_shape).
  split; [apply sorted_outer_shapes|].
  unfold sub_of, super_of.
  destruct (length inputs_outer_shape <=? length cam_outer_shape)%nat eqn:E;
    [apply Nat.leb_le in E | apply Nat.leb_gt in E];
    rewrite overhang_self; change (Py.prod []) with 1.
  - split; [left; reflexivity|]. split; [|split].
    + intros Hlen. split; [reflexivity|].
      rewrite overhang_firstn, Hlen, Nat.sub_diag. reflexivity.
    + split; [intros [_ H]; exact H | intros H; split; [reflexivity | exact H]].
    + intros H. left. split; [reflexivity | exact H].
  - split; [right; reflexivity|]. split; [|split].
    + intros Hlen. lia.
    + split; [intros [H _]; exact H | intros H; split; [exact H | reflexivity]].
    + intros H. right. split; [exact H | reflexivity].
Qed.

Lemma overhang_factor_one_witness :
  exists sub_shape super_shape,
    Py.unpack2 (Py.sorted (@length N) [[4; 3]; [4; 3]])
      = Ok (sub_shape, super_shape)
    /\ Py.prod (overhang sub_shape [4; 3]) = 1
    /\ Py.prod (overhang sub_shape [4; 3]) = 1.
Proof.
  destruct (overhang_factor_one [4; 3] [4; 3])
    as (sub_shape & super_shape & E & _ & H & _).
  exists sub_shape, super_shape. split; [exact E|].
  apply H. reflexivity.
Defined.

(** C8, as stated, fails for inputs stacked as [(1, 4, 3)] against a cam
    stacked as [(4, 3)]: the precondition holds, the overhang of the
    inputs is [(1,)] and that of the cam is empty, so both overhang factors
    are 1, not exactly one of them. *)
Lemma overhang_factors_both_one :
  exists sub_shape super_shape,
    Py.unpack2 (Py.sorted (@length N) [[1; 4; 3]; [4; 3]])
      = Ok (sub_shape, super_shape)
    /\ trailing_suffix sub_shape super_shape
    /\ overhang sub_shape [1; 4; 3] = [1]
    /\ overhang sub_shape [4; 3] = []
    /\ Py.prod (overhang sub_shape [1; 4; 3]) = 1
    /\ Py.prod (overhang sub_shape [4; 3]) = 1
    /\ ~ exactly_one (Py.prod (overhang sub_shape [1; 4; 3]) = 1)
                     (Py.prod (overhang sub_shape [4; 3]) = 1).
Proof.
  exists [4; 3], [1; 4; 3]. split; [reflexivity|]. split.
  - exists [1]. reflexivity.
  - repeat (split; [reflexivity|]).
    intros [[_ H]|[H _]]; apply H; reflexivity.
Qed.

(** The same happens in case 1: for equal outer shapes [(4, 3)] both
    overhangs are empty. *)
Example overhang_factors_equal_shapes :
  Py.sorted (@length N) [[4; 3]; [4; 3]] = [[4; 3]; [4; 3]]
  /\ overhang [4; 3] [4; 3] = []
  /\ Py.prod (overhang [4; 3] [4; 3]) = 1.
Proof. repeat split. Qed.

(** ** Launch geometry *)

Lemma ceil_div_spec (a b : N) :
  1 <= b -> 1 <= a ->
  a <= b * ceil_div a b /\ b * (ceil_div a b - 1) < a /\ 1 <= ceil_div a b.
Proof.
  intros Hb Ha. unfold ceil_div.
  pose proof (N.div_mod (a + b - 1) b ltac:(lia)) as E.
  pose proof (N.mod_upper_bound (a + b - 1) b ltac:(lia)) as U.
  set (c := (a + b - 1) / b) in *. set (r := (a + b - 1) mod b) in *.
  assert (1 <= c) by nia. repeat split; nia.
Qed.

Lemma launch_geometry_exact (threads_per_core max_threads_per_block : N)
    (sub_shape : list N) :
  1 <= threads_per_core -> threads_per_core < 2 ^ 53 ->
  1 <= max_threads_per_block ->
  launch_geometry threads_per_core max_threads_per_block sub_shape
  = Ok ((ceil_div threads_per_core
           (N.min threads_per_core max_threads_per_block),
         Py.prod sub_shape, 1),
        (N.min threads_per_core max_threads_per_block, 1, 1)).
Proof.
  intros H1 H2 H3. unfold launch_geometry.
  destruct (@ceil_truediv_exact threads_per_core
              (N.min threads_per_core max_threads_per_block))
    as (q & Eq & Ec); try lia.
  rewrite Eq. cbn [rbind]. rewrite Ec. reflexivity.
Qed.

(** Where the float quotient is exact, for [1 <= threads_per_core < 2^53]
    and [max_threads_per_block >= 1], the geometry is the intended one:
    [dim_block] is [(min(threads_per_core, max_threads_per_block), 1, 1)],
    [dim_grid] is [(ceil(threads_per_core / threads_per_block),
    prod(sub_shape), 1)] with the exact ceiling, so
    [dim_block.x * dim_grid.x >= threads_per_core] and
    [dim_block.x <= max_threads_per_block]. *)
Lemma launch_geometry_covers_threads
    (input_rows inputs_overhang cam_rows cam_overhang : N)
    (max_threads_per_block : N) (sub_shape : list N) :
  let threads_per_core :=
    input_rows * inputs_overhang * cam_rows * cam_overhang in
  1 <= threads_per_core -> threads_per_core < 2 ^ 53 ->
  1 <= max_threads_per_block ->
  exists grid_x block_x,
    launch_geometry threads_per_core max_threads_per_block sub_shape
      = Ok ((grid_x, Py.prod sub_shape, 1), (block_x, 1, 1))
    /\ block_x = N.min threads_per_core max_threads_per_block
    /\ grid_x = ceil_div threads_per_core block_x
    /\ threads_per_core <= block_x * grid_x
    /\ block_x * (grid_x - 1) < threads_per_core
    /\ block_x <= max_threads_per_block.
Proof.
  intros tpc H1 H2 H3.
  exists (ceil_div tpc (N.min tpc max_threads_per_block)),
         (N.min tpc max_threads_per_block).
  destruct (@ceil_div_spec tpc (N.min tpc max_threads_per_block))
    as (C1 & C2 & C3); try lia.
  split; [apply launch_geometry_exact; assumption|].
  repeat split; try assumption; lia.
Qed.

Lemma launch_geometry_covers_threads_witness :
  exists grid_x block_x,
    launch_geometry (2 * 1 * 3 * 5) 1024 []
      = Ok ((grid_x, Py.prod [], 1), (block_x, 1, 1))
    /\ block_x = N.min (2 * 1 * 3 * 5) 1024
    /\ grid_x = ceil_div (2 * 1 * 3 * 5) block_x
    /\ 2 * 1 * 3 * 5 <= block_x * grid_x
    /\ block_x * (grid_x - 1) < 2 * 1 * 3 * 5
    /\ block_x <= 1024.
Proof.
  apply (@launch_geometry_covers_threads 2 1 3 5 1024 []);
    vm_compute; (reflexivity || discriminate).
Defined.

(** Beyond 53 bits the float quotient loses the remainder: with
    [threads_per_core = 2^53 + 1] and [max_threads_per_block = 1] it is
    [2^53], and [dim_block.x * dim_grid.x = 2^53 < threads_per_core]. *)
Lemma launch_geometry_float_rounding :
  let threads_per_core := (2 ^ 53 + 1) * 1 * 1 * 1 in
  1 <= threads_per_core /\ 1 <= 1 /\
  launch_geometry threads_per_core 1 [] = Ok ((2 ^ 53, 1, 1), (1, 1, 1)) /\
  1 * 2 ^ 53 < threads_per_core.
Proof. vm_compute. repeat split; (reflexivity || discriminate). Qed.

(** C5. The launch geometry does not always satisfy
    [dim_block.x * dim_grid.x >= threads_per_core]: the grid size is
    [ceil] of a float quotient.  Operands of shape [(0, 2^62 + 1, 1)] and
    [(0, 1, 1)] hold no element, their results buffer of shape
    [(0, 2^62 + 1, 1)] holds none either, and
    [threads_per_core = 2^62 + 1 >= 1].  With
    [max_threads_per_block = 1024 >= 1] the call computes
    [dim_block = (1024, 1, 1)] and [dim_grid = (2^52, 0, 1)], and
    [1024 * 2^52 = 2^62 < threads_per_core]. *)
Theorem launch_geometry_loses_threads :
  let inputs := sample_array [0; 2 ^ 62 + 1; 1] in
  let cam := sample_array [0; 1; 1] in
  let threads_per_core :=
    (2 ^ 62 + 1) * Py.prod (overhang [0] [0]) * 1 * Py.prod (overhang [0] [0]) in
  1 <= threads_per_core
  /\ 1 <= max_threads_per_block sample_kernel
  /\ launch_geometry threads_per_core (max_threads_per_block sample_kernel) [0]
     = Ok ((2 ^ 52, 0, 1), (1024, 1, 1))
  /\ 1024 * 2 ^ 52 < threads_per_core
  /\ exists args res,
       run_kernel 0 sample_kernel unit_width plain_op inputs cam tt None
       = ([DevZeros [0; 2 ^ 62 + 1; 1] tt; DevAsarray []; DevAsarray [];
           DevLaunch (2 ^ 52, 0, 1) (1024, 1, 1) args],
          Ok res).
Proof.
  cbv zeta. split; [vm_compute; discriminate|].
  split; [vm_compute; discriminate|].
  split; [vm_compute; reflexivity|].
  split; [vm_compute; reflexivity|].
  eexists _, _. vm_compute. reflexivity.
Qed.

(** With a non-empty stack the same geometry is computed, for instance at
    [threads_per_core = 2^62 + 1] with one core. *)
Example launch_geometry_float_rounding_1024 :
  launch_geometry (2 ^ 62 + 1) 1024 [] = Ok ((2 ^ 52, 1, 1), (1024, 1, 1)) /\
  1024 * 2 ^ 52 < 2 ^ 62 + 1.
Proof. vm_compute. split; reflexivity. Qed.

Lemma launch_geometry_zero (max_threads_per_block : N) (sub_shape : list N) :
  launch_geometry 0 max_threads_per_block sub_shape = Raise ZeroDivisionError.
Proof. unfold launch_geometry. rewrite N.min_0_l. reflexivity. Qed.

(** ** Calls on well-formed operands *)

Section Calls.

Variables (V DType : Type) (zero : V).
Variables (kernel : Kernel V DType) (variant : CamVariant) (op : CamOp).
Variables (inputs cam : ndarray V DType) (dt : DType).
Variables (io co : list N) (ir ic cr cc : N).
Hypothesis Hin : shape inputs = io ++ [ir; ic].
Hypothesis Hcam : shape cam = co ++ [cr; cc].

Let sub := sub_of io co.
Let super := super_of io co.
Let eir := ir * Py.prod (overhang sub io).
Let ecr := cr * Py.prod (overhang sub co).
Let tpc := ir * Py.prod (overhang sub io) * cr * Py.prod (overhang sub co).
Let rs := results_shape_of (is_reduction op) super ir cr.
Let results := fresh_results zero rs dt.
Let base := base_args inputs cam (cc / cell_encoding_width variant) eir ecr results.
Let uploads : list (device_op V DType) :=
  [DevZeros rs dt; DevAsarray (ravel inputs); DevAsarray (ravel cam)].

Lemma run_kernel_zero_threads (rv : option (ndarray V DType)) :
  tpc = 0 ->
  exists t, run_kernel zero kernel variant op inputs cam dt rv
            = (t, Raise ZeroDivisionError)
            /\ existsb (@is_launch V DType) t = false.
Proof.
  intros Hz. rewrite (@run_kernel_eq _ _ zero kernel variant op _ _ dt rv _ _ _ _ _ _ Hin Hcam).
  destruct (cell_encoding_width variant =? 0).
  - exists []. split; reflexivity.
  - fold sub. fold tpc. rewrite Hz, launch_geometry_zero.
    eexists. split; reflexivity.
Qed.

Lemma run_kernel_plain_inv (rv : option (ndarray V DType)) t res :
  is_reduction op = false ->
  run_kernel zero kernel variant op inputs cam dt rv = (t, Ok res) ->
  exists g b,
    cell_encoding_width variant <> 0
    /\ launch_geometry tpc (max_threads_per_block kernel) sub = Ok (g, b)
    /\ t = uploads ++ [DevLaunch g b base]
    /\ restore_shape (written kernel g b base results) io co sub super ir cr
       = Ok res.
Proof.
  intros Hred. rewrite (@run_kernel_eq _ _ zero kernel variant op _ _ dt rv _ _ _ _ _ _ Hin Hcam).
  destruct (cell_encoding_width variant =? 0) eqn:Ew; [discriminate|].
  fold sub super. fold tpc. fold rs. fold results. fold eir ecr. fold base.
  destruct (launch_geometry tpc (max_threads_per_block kernel) sub)
    as [[g b]|e]; [|discriminate].
  rewrite Hred. intros E. injection E as Et Er.
  exists g, b. apply N.eqb_neq in Ew. subst t. repeat split; assumption.
Qed.

Lemma run_kernel_plain_eq (rv : option (ndarray V DType)) g b :
  is_reduction op = false ->
  cell_encoding_width variant <> 0 ->
  launch_geometry tpc (max_threads_per_block kernel) sub = Ok (g, b) ->
  run_kernel zero kernel variant op inputs cam dt rv
  = (uploads ++ [DevLaunch g b base],
     restore_shape (written kernel g b base results) io co sub super ir cr).
Proof.
  intros Hred Hw Hg. rewrite (@run_kernel_eq _ _ zero kernel variant op _ _ dt rv _ _ _ _ _ _ Hin Hcam).
  apply N.eqb_neq in Hw. rewrite Hw.
  fold sub super. fold tpc. fold rs. fold results. fold eir ecr. fold base.
  rewrite Hg, Hred. reflexivity.
Qed.

End Calls.

Section Claims.

Variables (V DType : Type) (zero : V).
Variables (kernel : Kernel V DType) (variant : CamVariant) (op : CamOp).
Variables (inputs cam : ndarray V DType) (dt : DType).

(** C6. When [threads_per_core] is 0 (for instance [input_rows = 0]),
    nothing guards the launch geometry: [threads_per_block] is 0 as well,
    [0 / 0] raises [ZeroDivisionError], and so does [run_kernel], which
    never reaches the kernel. *)
Theorem zero_threads_division_by_zero
    (rv : option (ndarray V DType)) (io co : list N) (ir ic cr cc : N) :
  shape inputs = io ++ [ir; ic] ->
  shape cam = co ++ [cr; cc] ->
  let sub_shape := sub_of io co in
  let threads_per_core :=
    ir * Py.prod (overhang sub_shape io) * cr * Py.prod (overhang sub_shape co) in
  threads_per_core = 0 ->
  Py.truediv threads_per_core
    (N.min threads_per_core (max_threads_per_block kernel))
    = Raise ZeroDivisionError
  /\ launch_geometry threads_per_core (max_threads_per_block kernel) sub_shape
     = Raise ZeroDivisionError
  /\ exists t,
       run_kernel zero kernel variant op inputs cam dt rv
         = (t, Raise ZeroDivisionError)
       /\ existsb (@is_launch V DType) t = false.
Proof.
  intros Hin Hcam sub_shape tpc Hz.
  split; [rewrite Hz, N.min_0_l; reflexivity|].
  split; [rewrite Hz; apply launch_geometry_zero|].
  apply (@run_kernel_zero_threads _ _ zero kernel variant op _ _ dt
           _ _ _ _ _ _ Hin Hcam rv Hz).
Qed.

(** C10. For a non-reduction operation [reduction_values] is ignored:
    two calls that differ only in it log the same device operations, the
    same kernel arguments included, and give the same result. *)
Theorem reduction_values_ignored (rv1 rv2 : option (ndarray V DType)) :
  is_reduction op = false ->
  run_kernel zero kernel variant op inputs cam dt rv1
  = run_kernel zero kernel variant op inputs cam dt rv2.
Proof.
  intros Hred. unfold run_kernel, kernel_arguments.
  rewrite Hred. reflexivity.
Qed.

Ltac raise_now := cbn [lift bind]; eexists _, _; split; reflexivity.

(** C4, as amended. A reduction called without reduction values always
    fails, and no kernel launch is logged before the failure.  When the
    operands are well formed and the launch geometry is computed, the
    failure is the assertion, raised after the results buffer was
    allocated and both operands were handed to [cp.asarray]. *)
Theorem reduction_without_values_fails :
  is_reduction op = true ->
  (exists t e,
     run_kernel zero kernel variant op inputs cam dt None = (t, Raise e)
     /\ existsb (@is_launch V DType) t = false)
  /\ (forall (io co : list N) (ir ic cr cc : N) g b,
        shape inputs = io ++ [ir; ic] ->
        shape cam = co ++ [cr; cc] ->
        cell_encoding_width variant <> 0 ->
        let sub_shape := sub_of io co in
        launch_geometry
          (ir * Py.prod (overhang sub_shape io)
           * cr * Py.prod (overhang sub_shape co))
          (max_threads_per_block kernel) sub_shape = Ok (g, b) ->
        run_kernel zero kernel variant op inputs cam dt None
        = ([DevZeros (super_of io co ++ [ir]) dt;
            DevAsarray (ravel inputs); DevAsarray (ravel cam)],
           Raise AssertionError)).
Proof.
  intros Hred. split.
  - unfold run_kernel.
    destruct (Py.index (shape inputs) (-2)) as [ir|e]; [|raise_now].
    destruct (Py.index (shape cam) (-2)) as [cr|e]; [|raise_now].
    destruct (Py.index (shape cam) (-1)) as [cc|e]; [|raise_now].
    cbn [lift bind].
    destruct (Py.floordiv cc (cell_encoding_width variant)) as [cols|e];
      [|raise_now].
    destruct (Py.unpack2 _) as [[sub super]|e]; [|raise_now].
    cbn [lift bind cp_zeros].
    destruct (launch_geometry _ _ _) as [[g b]|e]; [|raise_now].
    unfold kernel_arguments. destruct (is_reduction op); [|discriminate]. raise_now.
  - intros io co ir ic cr cc g b Hin Hcam Hw sub_shape Hg.
    rewrite (@run_kernel_eq _ _ zero kernel variant op _ _ dt None
               _ _ _ _ _ _ Hin Hcam).
    apply N.eqb_neq in Hw. rewrite Hw.
    fold sub_shape. rewrite Hg, Hred.
    reflexivity.
Qed.

End Claims.

Section OuterShapes.

Variables (ovh sub : list N).
Hypothesis Hovh : ovh <> [].

Lemma overhang_nonempty_length : (0 < length ovh)%nat.
Proof. destruct ovh; [congruence | simpl; lia]. Qed.

Lemma sub_of_inputs_superset : sub_of (ovh ++ sub) sub = sub.
Proof.
  pose proof overhang_nonempty_length. unfold sub_of. rewrite length_app.
  destruct (length ovh + length sub <=? length sub)%nat eqn:E;
    [apply Nat.leb_le in E; lia | reflexivity].
Qed.

Lemma super_of_inputs_superset : super_of (ovh ++ sub) sub = ovh ++ sub.
Proof.
  pose proof overhang_nonempty_length. unfold super_of. rewrite length_app.
  destruct (length ovh + length sub <=? length sub)%nat eqn:E;
    [apply Nat.leb_le in E; lia | reflexivity].
Qed.

Lemma sub_of_cam_superset : sub_of sub (ovh ++ sub) = sub.
Proof.
  unfold sub_of. rewrite length_app.
  destruct (length sub <=? length ovh + length sub)%nat eqn:E;
    [reflexivity | apply Nat.leb_gt in E; lia].
Qed.

Lemma super_of_cam_superset : super_of sub (ovh ++ sub) = ovh ++ sub.
Proof.
  unfold super_of. rewrite length_app.
  destruct (length sub <=? length ovh + length sub)%nat eqn:E;
    [reflexivity | apply Nat.leb_gt in E; lia].
Qed.

End OuterShapes.

Section Claims2.

Variables (V DType : Type) (zero : V).
Variables (kernel : Kernel V DType) (variant : CamVariant) (op : CamOp).
Variables (inputs cam : ndarray V DType) (dt : DType).

(** C9. Every kernel launch of a call receives the arguments: flattened
    inputs, flattened cam, [cam.shape[-1] // cell_encoding_width],
    [input_rows * inputs_overhang], [cam_rows * cam_overhang], the results
    buffer, followed by the flattened reduction values exactly when the
    operation is a reduction.  For [1 <= threads_per_core < 2^53] the
    launch takes place, with the planned grid and block. *)
Theorem kernel_argument_list
    (rv : option (ndarray V DType)) (io co : list N) (ir ic cr cc : N) :
  shape inputs = io ++ [ir; ic] ->
  shape cam = co ++ [cr; cc] ->
  let sub_shape := sub_of io co in
  let super_shape := super_of io co in
  let inputs_overhang := Py.prod (overhang sub_shape io) in
  let cam_overhang := Py.prod (overhang sub_shape co) in
  let threads_per_core := ir * inputs_overhang * cr * cam_overhang in
  let threads_per_block :=
    N.min threads_per_core (max_threads_per_block kernel) in
  let results :=
    fresh_results zero
      (super_shape ++ (if is_reduction op then [ir] else [ir; cr])) dt in
  let expected :=
    [KFlat (ravel inputs); KFlat (ravel cam);
     KInt (cc / cell_encoding_width variant);
     KInt (ir * inputs_overhang); KInt (cr * cam_overhang);
     KArray results] in
  let trace := fst (run_kernel zero kernel variant op inputs cam dt rv) in
  (forall g b args,
     In (DevLaunch g b args) trace ->
     if is_reduction op
     then exists values, rv = Some values
                         /\ args = expected ++ [KFlat (ravel values)]
     else args = expected)
  /\ (cell_encoding_width variant <> 0 ->
      1 <= threads_per_core -> threads_per_core < 2 ^ 53 ->
      1 <= max_threads_per_block kernel ->
      (is_reduction op = true -> rv <> None) ->
      exists args,
        In (DevLaunch
              (ceil_div threads_per_core threads_per_block,
               Py.prod sub_shape, 1)
              (threads_per_block, 1, 1) args) trace).
Proof.
  intros Hin Hcam sub_shape super_shape inputs_overhang cam_overhang
    threads_per_core threads_per_block results expected trace.
  subst trace.
  rewrite (@run_kernel_eq _ _ zero kernel variant op _ _ dt rv
             _ _ _ _ _ _ Hin Hcam).
  fold sub_shape super_shape. fold inputs_overhang cam_overhang.
  fold threads_per_core. unfold results_shape_of, base_args.
  fold results. fold expected.
  split.
  - intros g b args Hl.
    destruct (cell_encoding_width variant =? 0); [destruct Hl|].
    destruct (launch_geometry threads_per_core (max_threads_per_block kernel)
                sub_shape) as [[g' b']|e].
    + destruct (is_reduction op).
      * destruct rv as [values|]; cbn [fst] in Hl.
        -- exists values. split; [reflexivity|].
           repeat (destruct Hl as [Hl|Hl]; [try discriminate|]);
             [injection Hl; intros; subst; reflexivity | destruct Hl].
        -- repeat (destruct Hl as [Hl|Hl]; [discriminate|]). destruct Hl.
      * cbn [fst] in Hl.
        repeat (destruct Hl as [Hl|Hl]; [try discriminate|]);
          [injection Hl; intros; subst; reflexivity | destruct Hl].
    + cbn [fst] in Hl. destruct Hl as [Hl|[]]. discriminate.
  - intros Hw H1 H2 H3 Hrv.
    apply N.eqb_neq in Hw. rewrite Hw.
    rewrite (launch_geometry_exact sub_shape H1 H2 H3).
    fold threads_per_block.
    destruct (is_reduction op).
    + destruct rv as [values|]; [|exfalso; apply Hrv; reflexivity].
      eexists. cbn [fst]. do 4 right. left. reflexivity.
    + eexists. cbn [fst]. do 3 right. left. reflexivity.
Qed.

End Claims2.

(** ** The two asymmetric cases *)

Section RestoreUnfolded.

Variables (V DType : Type).
Variables (ovh sub : list N) (ir cr : N) (r : ndarray V DType).
Hypothesis Hovh : ovh <> [].
Hypothesis Hdims : length (shape r) = (length (ovh ++ sub) + 2)%nat.

Let k := length sub.
Let d := (length (ovh ++ sub) + 2)%nat.

(** Case 2 is a reshape followed by the transposition
    [k .. d-3], [0 .. k-1], [d-2, d-1]. *)
Lemma restore_shape_inputs_superset_steps :
  restore_shape r (ovh ++ sub) sub sub (ovh ++ sub) ir cr =
  rbind (reshape r (sub ++ ovh ++ [ir; cr])) (fun x =>
  transpose x
    (map Z.of_nat (seq k (d - 2 - k) ++ seq 0 k ++ [d - 2; d - 1])%nat)).
Proof.
  pose proof (overhang_nonempty_length Hovh) as Hn.
  unfold restore_shape. rewrite Hdims, overhang_suffix.
  subst d k. rewrite !length_app.
  destruct (length ovh + length sub =? length sub)%nat eqn:E1;
    [apply Nat.eqb_eq in E1; lia|].
  destruct (length sub <? length ovh + length sub)%nat eqn:E2;
    [|apply Nat.ltb_ge in E2; lia].
  f_equal.
  set (k := length sub). set (n := length ovh).
  replace (Z.of_nat (n + k + 2) - 2)%Z with (Z.of_nat (k + n)) by lia.
  replace (Z.of_nat (n + k + 2) - 1)%Z with (Z.of_nat (k + n + 1)) by lia.
  change 0%Z with (Z.of_nat 0).
  rewrite !range_of_nat, !map_app, Nat.sub_0_r. cbn [map].
  replace (n + k + 2 - 2 - k)%nat with (k + n - k)%nat by lia.
  replace (n + k + 2 - 2)%nat with (k + n)%nat by lia.
  replace (n + k + 2 - 1)%nat with (k + n + 1)%nat by lia.
  reflexivity.
Qed.

(** Case 3 is a reshape followed by the transposition
    [k+1 .. d-2], [0 .. k-1], [k], [d-1]. *)
Lemma restore_shape_cam_superset_steps :
  restore_shape r sub (ovh ++ sub) sub (ovh ++ sub) ir cr =
  rbind (reshape r (sub ++ [ir] ++ ovh ++ [cr])) (fun x =>
  transpose x
    (map Z.of_nat (seq (k + 1) (d - 2 - k) ++ seq 0 k ++ [k; d - 1])%nat)).
Proof.
  pose proof (overhang_nonempty_length Hovh) as Hn.
  unfold restore_shape. rewrite Hdims, overhang_suffix.
  subst d k. rewrite !length_app.
  destruct (length sub =? length ovh + length sub)%nat eqn:E1;
    [apply Nat.eqb_eq in E1; lia|].
  destruct (length ovh + length sub <? length sub)%nat eqn:E2;
    [apply Nat.ltb_lt in E2; lia|].
  f_equal.
  set (k := length sub). set (n := length ovh).
  replace (Z.of_nat k + 1)%Z with (Z.of_nat (k + 1)) by lia.
  replace (Z.of_nat (n + k + 2) - 1)%Z with (Z.of_nat (k + 1 + n)) by lia.
  change 0%Z with (Z.of_nat 0).
  rewrite !range_of_nat, !map_app, Nat.sub_0_r. cbn [map].
  replace (n + k + 2 - 2 - k)%nat with (k + 1 + n - (k + 1))%nat by lia.
  replace (n + k + 2 - 1)%nat with (k + 1 + n)%nat by lia.
  reflexivity.
Qed.

End RestoreUnfolded.

Section Asymmetric.

Variables (V DType : Type) (zero : V).
Variables (kernel : Kernel V DType) (variant : CamVariant) (op : CamOp).
Variables (inputs cam : ndarray V DType) (dt : DType).
Variable rv : option (ndarray V DType).
Variables (ovh sub : list N) (ir ic cr cc : N).
Hypothesis Hovh : ovh <> [].
Hypothesis Hred : is_reduction op = false.

Let len := N.to_nat (Py.prod ((ovh ++ sub) ++ [ir; cr])).

Lemma written_fresh g b args :
  written kernel g b args (fresh_results zero ((ovh ++ sub) ++ [ir; cr]) dt)
  = NDArray ((ovh ++ sub) ++ [ir; cr]) (c_strides ((ovh ++ sub) ++ [ir; cr]))
      dt (map (launch kernel g b args) (seq 0 len)).
Proof.
  unfold written, fresh_results. cbn [shape strides dtype buf].
  rewrite repeat_length. reflexivity.
Qed.

Section InputsSuperset.

Hypothesis Hin : shape inputs = (ovh ++ sub) ++ [ir; ic].
Hypothesis Hcam : shape cam = sub ++ [cr; cc].

Lemma run_kernel_inputs_superset_inv t res :
  run_kernel zero kernel variant op inputs cam dt rv = (t, Ok res) ->
  exists g b args,
    In (DevLaunch g b args) t
    /\ restore_shape
         (written kernel g b args
            (fresh_results zero ((ovh ++ sub) ++ [ir; cr]) dt))
         (ovh ++ sub) sub sub (ovh ++ sub) ir cr = Ok res
    /\ res = NDArray (ovh ++ sub ++ [ir; cr])
               (map (N.mul (Py.prod [ir; cr])) (c_strides ovh)
                  ++ map (N.mul (Py.prod (ovh ++ [ir; cr]))) (c_strides sub)
                  ++ c_strides [ir; cr])
               dt (map (launch kernel g b args) (seq 0 len)).
Proof.
  intros E.
  destruct (@run_kernel_plain_inv _ _ zero kernel variant op _ _ dt
              _ _ _ _ _ _ Hin Hcam rv t res Hred E)
    as (g & b & Hw & Hg & Ht & Hr).
  rewrite (sub_of_inputs_superset sub Hovh),
          (super_of_inputs_superset sub Hovh) in Hr, Ht.
  unfold results_shape_of in Hr, Ht. rewrite Hred in Hr, Ht.
  eexists g, b, _. split; [|split].
  - rewrite Ht. apply in_or_app. right. left. reflexivity.
  - exact Hr.
  - rewrite written_fresh in Hr.
    rewrite (restore_shape_inputs_superset sub ir cr dt _ Hovh) in Hr.
    injection Hr as Hr. subst res. reflexivity.
Qed.

Lemma run_kernel_inputs_superset_returns :
  cell_encoding_width variant <> 0 ->
  1 <= ir * Py.prod ovh * cr -> ir * Py.prod ovh * cr < 2 ^ 53 ->
  1 <= max_threads_per_block kernel ->
  exists t res, run_kernel zero kernel variant op inputs cam dt rv = (t, Ok res).
Proof.
  intros Hw H1 H2 H3.
  erewrite (@run_kernel_plain_eq _ _ zero kernel variant op _ _ dt
              _ _ _ _ _ _ Hin Hcam rv _ _ Hred Hw).
  2:{ rewrite (sub_of_inputs_superset sub Hovh), overhang_suffix, overhang_self.
      apply launch_geometry_exact; try assumption;
        change (Py.prod []) with 1; lia. }
  rewrite (sub_of_inputs_superset sub Hovh),
          (super_of_inputs_superset sub Hovh).
  unfold results_shape_of. rewrite Hred. rewrite written_fresh.
  rewrite (restore_shape_inputs_superset sub ir cr dt _ Hovh).
  eexists _, _. reflexivity.
Qed.

End InputsSuperset.

Section CamSuperset.

Hypothesis Hin : shape inputs = sub ++ [ir; ic].
Hypothesis Hcam : shape cam = (ovh ++ sub) ++ [cr; cc].

Lemma run_kernel_cam_superset_inv t res :
  run_kernel zero kernel variant op inputs cam dt rv = (t, Ok res) ->
  exists g b args,
    In (DevLaunch g b args) t
    /\ restore_shape
         (written kernel g b args
            (fresh_results zero ((ovh ++ sub) ++ [ir; cr]) dt))
         sub (ovh ++ sub) sub (ovh ++ sub) ir cr = Ok res
    /\ res = NDArray (ovh ++ sub ++ [ir; cr])
               (map (N.mul (Py.prod [cr])) (c_strides ovh)
                  ++ map (N.mul (Py.prod ([ir] ++ ovh ++ [cr]))) (c_strides sub)
                  ++ [Py.prod (ovh ++ [cr]); Py.prod []])
               dt (map (launch kernel g b args) (seq 0 len)).
Proof.
  intros E.
  destruct (@run_kernel_plain_inv _ _ zero kernel variant op _ _ dt
              _ _ _ _ _ _ Hin Hcam rv t res Hred E)
    as (g & b & Hw & Hg & Ht & Hr).
  rewrite (sub_of_cam_superset ovh sub), (super_of_cam_superset ovh sub) in Hr, Ht.
  unfold results_shape_of in Hr, Ht. rewrite Hred in Hr, Ht.
  eexists g, b, _. split; [|split].
  - rewrite Ht. apply in_or_app. right. left. reflexivity.
  - exact Hr.
  - rewrite written_fresh in Hr.
    rewrite (restore_shape_cam_superset sub ir cr dt _ Hovh) in Hr.
    injection Hr as Hr. subst res. reflexivity.
Qed.

Lemma run_kernel_cam_superset_returns :
  cell_encoding_width variant <> 0 ->
  1 <= ir * cr * Py.prod ovh -> ir * cr * Py.prod ovh < 2 ^ 53 ->
  1 <= max_threads_per_block kernel ->
  exists t res, run_kernel zero kernel variant op inputs cam dt rv = (t, Ok res).
Proof.
  intros Hw H1 H2 H3.
  erewrite (@run_kernel_plain_eq _ _ zero kernel variant op _ _ dt
              _ _ _ _ _ _ Hin Hcam rv _ _ Hred Hw).
  2:{ rewrite (sub_of_cam_superset ovh sub), overhang_suffix, overhang_self.
      apply launch_geometry_exact; try assumption;
        change (Py.prod []) with 1; lia. }
  rewrite (sub_of_cam_superset ovh sub), (super_of_cam_superset ovh sub).
  unfold results_shape_of. rewrite Hred. rewrite written_fresh.
  rewrite (restore_shape_cam_superset sub ir cr dt _ Hovh).
  eexists _, _. reflexivity.
Qed.

End CamSuperset.

End Asymmetric.

Section ClaimsAsymmetric.

Variables (V DType : Type) (zero : V).
Variables (kernel : Kernel V DType) (variant : CamVariant) (op : CamOp).
Variables (inputs cam : ndarray V DType) (dt : DType).
Variable rv : option (ndarray V DType).
Variables (ovh sub : list N) (ir ic cr cc : N).

(** C1. Non-reduction call, overhang [ovh] non-empty, shorter outer
    shape [sub] a trailing suffix of the longer one [ovh ++ sub], [k] the
    length of [sub] and [d] the number of dimensions.
    Case 2 (inputs longer): the returned array is the kernel-written
    buffer reshaped to [sub ++ ovh ++ [input_rows; cam_rows]] and
    transposed by [k .. d-3], [0 .. k-1], [d-2, d-1].
    Case 3 (cam longer): it is the buffer reshaped to
    [sub ++ [input_rows] ++ ovh ++ [cam_rows]] and transposed by
    [k+1 .. d-2], [0 .. k-1], [k], [d-1].
    In both cases its shape is [super_shape ++ [input_rows; cam_rows]],
    and the call returns for [1 <= threads_per_core < 2^53]. *)
Theorem restore_by_reshape_and_transpose :
  ovh <> [] ->
  is_reduction op = false ->
  let super_shape := ovh ++ sub in
  let k := length sub in
  let d := (length super_shape + 2)%nat in
  let buffer g b args :=
    written kernel g b args
      (fresh_results zero (super_shape ++ [ir; cr]) dt) in
  (shape inputs = super_shape ++ [ir; ic] ->
   shape cam = sub ++ [cr; cc] ->
   (forall t res,
      run_kernel zero kernel variant op inputs cam dt rv = (t, Ok res) ->
      exists g b args,
        In (DevLaunch g b args) t
        /\ rbind (reshape (buffer g b args) (sub ++ ovh ++ [ir; cr]))
             (fun x =>
              transpose x
                (map Z.of_nat
                   (seq k (d - 2 - k) ++ seq 0 k ++ [d - 2; d - 1])%nat))
           = Ok res
        /\ shape res = super_shape ++ [ir; cr])
   /\ (cell_encoding_width variant <> 0 ->
       1 <= ir * Py.prod ovh * cr -> ir * Py.prod ovh * cr < 2 ^ 53 ->
       1 <= max_threads_per_block kernel ->
       exists t res,
         run_kernel zero kernel variant op inputs cam dt rv = (t, Ok res)))
  /\
  (shape inputs = sub ++ [ir; ic] ->
   shape cam = super_shape ++ [cr; cc] ->
   (forall t res,
      run_kernel zero kernel variant op inputs cam dt rv = (t, Ok res) ->
      exists g b args,
        In (DevLaunch g b args) t
        /\ rbind (reshape (buffer g b args) (sub ++ [ir] ++ ovh ++ [cr]))
             (fun x =>
              transpose x
                (map Z.of_nat
                   (seq (k + 1) (d - 2 - k) ++ seq 0 k ++ [k; d - 1])%nat))
           = Ok res
        /\ shape res = super_shape ++ [ir; cr])
   /\ (cell_encoding_width variant <> 0 ->
       1 <= ir * cr * Py.prod ovh -> ir * cr * Py.prod ovh < 2 ^ 53 ->
       1 <= max_threads_per_block kernel ->
       exists t res,
         run_kernel zero kernel variant op inputs cam dt rv = (t, Ok res))).
Proof.
  intros Hovh Hred super_shape k d buffer.
  assert (Hdims : forall g b args,
            length (shape (buffer g b args)) = (length (ovh ++ sub) + 2)%nat).
  { intros. unfold buffer, written, fresh_results. cbn [shape].
    rewrite length_app. reflexivity. }
  split; intros Hin Hcam; (split; [intros t res E|]).
  - destruct (@run_kernel_inputs_superset_inv _ _ zero kernel variant op
                _ _ dt rv ovh sub ir ic cr cc Hovh Hred Hin Hcam t res E)
      as (g & b & args & Hl & Hr & Hres).
    exists g, b, args. split; [exact Hl|]. split.
    + exact (eq_trans
               (eq_sym (@restore_shape_inputs_superset_steps V DType ovh sub ir cr
                          (buffer g b args) Hovh (Hdims g b args)))
               Hr).
    + rewrite Hres. cbn [shape]. unfold super_shape.
      rewrite <- app_assoc. reflexivity.
  - apply (@run_kernel_inputs_superset_returns _ _ zero kernel variant op
             _ _ dt rv ovh sub ir ic cr cc Hovh Hred Hin Hcam).
  - destruct (@run_kernel_cam_superset_inv _ _ zero kernel variant op
                _ _ dt rv ovh sub ir ic cr cc Hovh Hred Hin Hcam t res E)
      as (g & b & args & Hl & Hr & Hres).
    exists g, b, args. split; [exact Hl|]. split.
    + exact (eq_trans
               (eq_sym (@restore_shape_cam_superset_steps V DType ovh sub ir cr
                          (buffer g b args) Hovh (Hdims g b args)))
               Hr).
    + rewrite Hres. cbn [shape]. unfold super_shape.
      rewrite <- app_assoc. reflexivity.
  - apply (@run_kernel_cam_superset_returns _ _ zero kernel variant op
             _ _ dt rv ovh sub ir ic cr cc Hovh Hred Hin Hcam).
Qed.

(** C2. Non-reduction call in case 2 or case 3: at every logical index
    [(o..., s..., i, j)] the returned array holds the value the kernel
    wrote at the physical position given by the reshape-then-permute
    formula, [(s..., o..., i, j)] in [sub ++ ovh ++ [input_rows; cam_rows]]
    for case 2 and [(s..., i, o..., j)] in
    [sub ++ [input_rows] ++ ovh ++ [cam_rows]] for case 3.  When every
    overhang dimension is 1 that position is the row-major position of the
    logical index itself: the transform is the identity. *)
Theorem round_trip_correspondence :
  ovh <> [] ->
  is_reduction op = false ->
  let super_shape := ovh ++ sub in
  (shape inputs = super_shape ++ [ir; ic] ->
   shape cam = sub ++ [cr; cc] ->
   (forall t res,
      run_kernel zero kernel variant op inputs cam dt rv = (t, Ok res) ->
      exists g b args,
        In (DevLaunch g b args) t
        /\ forall o s i j,
             in_bounds o ovh = true -> in_bounds s sub = true ->
             i < ir -> j < cr ->
             getitem res (o ++ s ++ [i; j])
             = Some (launch kernel g b args
                       (N.to_nat
                          (physical_inputs_superset sub ovh ir cr o s i j)))
             /\ (Forall (fun e => e = 1) ovh ->
                 physical_inputs_superset sub ovh ir cr o s i j
                 = ravel_multi_index (super_shape ++ [ir; cr])
                     (o ++ s ++ [i; j])))
   /\ (cell_encoding_width variant <> 0 ->
       1 <= ir * Py.prod ovh * cr -> ir * Py.prod ovh * cr < 2 ^ 53 ->
       1 <= max_threads_per_block kernel ->
       exists t res,
         run_kernel zero kernel variant op inputs cam dt rv = (t, Ok res)))
  /\
  (shape inputs = sub ++ [ir; ic] ->
   shape cam = super_shape ++ [cr; cc] ->
   (forall t res,
      run_kernel zero kernel variant op inputs cam dt rv = (t, Ok res) ->
      exists g b args,
        In (DevLaunch g b args) t
        /\ forall o s i j,
             in_bounds o ovh = true -> in_bounds s sub = true ->
             i < ir -> j < cr ->
             getitem res (o ++ s ++ [i; j])
             = Some (launch kernel g b args
                       (N.to_nat
                          (physical_cam_superset sub ovh ir cr o s i j)))
             /\ (Forall (fun e => e = 1) ovh ->
                 physical_cam_superset sub ovh ir cr o s i j
                 = ravel_multi_index (super_shape ++ [ir; cr])
                     (o ++ s ++ [i; j])))
   /\ (cell_encoding_width variant <> 0 ->
       1 <= ir * cr * Py.prod ovh -> ir * cr * Py.prod ovh < 2 ^ 53 ->
       1 <= max_threads_per_block kernel ->
       exists t res,
         run_kernel zero kernel variant op inputs cam dt rv = (t, Ok res))).
Proof.
  intros Hovh Hred super_shape.
  split; intros Hin Hcam; (split; [intros t res E|]).
  - destruct (@run_kernel_inputs_superset_inv _ _ zero kernel variant op
                _ _ dt rv ovh sub ir ic cr cc Hovh Hred Hin Hcam t res E)
      as (g & b & args & Hl & _ & Hres).
    exists g, b, args. split; [exact Hl|].
    intros o s i j Ho Hs Hi Hj. split.
    + rewrite Hres. apply getitem_inputs_superset; assumption.
    + intros Hall. unfold super_shape. rewrite <- app_assoc.
      apply physical_inputs_superset_unit; assumption.
  - apply (@run_kernel_inputs_superset_returns _ _ zero kernel variant op
             _ _ dt rv ovh sub ir ic cr cc Hovh Hred Hin Hcam).
  - destruct (@run_kernel_cam_superset_inv _ _ zero kernel variant op
                _ _ dt rv ovh sub ir ic cr cc Hovh Hred Hin Hcam t res E)
      as (g & b & args & Hl & _ & Hres).
    exists g, b, args. split; [exact Hl|].
    intros o s i j Ho Hs Hi Hj. split.
    + rewrite Hres. apply getitem_cam_superset; assumption.
    + intros Hall. unfold super_shape. rewrite <- app_assoc.
      apply physical_cam_superset_unit; assumption.
  - apply (@run_kernel_cam_superset_returns _ _ zero kernel variant op
             _ _ dt rv ovh sub ir ic cr cc Hovh Hred Hin Hcam).
Qed.

End ClaimsAsymmetric.

(** ** The scenarios of the specification *)

Lemma restore_by_reshape_and_transpose_witness :
  exists t res,
    run_kernel 0 sample_kernel unit_width plain_op
      (sample_array [2; 4]) (sample_array [5; 3; 4]) tt None = (t, Ok res)
    /\ shape res = [5; 2; 3].
Proof.
  destruct (@restore_by_reshape_and_transpose N unit 0 sample_kernel
              unit_width plain_op (sample_array [2; 4])
              (sample_array [5; 3; 4]) tt None [5] [] 2 4 3 4
              ltac:(discriminate) eq_refl) as [_ H].
  destruct (H eq_refl eq_refl) as [Hinv Hret].
  destruct Hret as (t & res & E);
    try (vm_compute; (reflexivity || discriminate)).
  destruct (Hinv t res E) as (g & b & args & _ & _ & Hs).
  exists t, res. split; assumption.
Defined.

Lemma round_trip_correspondence_witness :
  exists t res g b args,
    run_kernel 0 sample_kernel unit_width plain_op
      (sample_array [2; 4]) (sample_array [5; 3; 4]) tt None = (t, Ok res)
    /\ In (DevLaunch g b args) t
    /\ getitem res [4; 1; 2]
       = Some (launch sample_kernel g b args
                 (N.to_nat (physical_cam_superset [] [5] 2 3 [4] [] 1 2))).
Proof.
  destruct (@round_trip_correspondence N unit 0 sample_kernel
              unit_width plain_op (sample_array [2; 4])
              (sample_array [5; 3; 4]) tt None [5] [] 2 4 3 4
              ltac:(discriminate) eq_refl) as [_ H].
  destruct (H eq_refl eq_refl) as [Hinv Hret].
  destruct Hret as (t & res & E);
    try (vm_compute; (reflexivity || discriminate)).
  destruct (Hinv t res E) as (g & b & args & Hl & Hg).
  exists t, res, g, b, args. split; [exact E|]. split; [exact Hl|].
  apply (Hg [4] [] 1 2); reflexivity.
Defined.

(** C3. The reduction scenario ([input_rows = 2], [cam_rows = 3],
    [inputs_outer_shape = ()], [cam_outer_shape = (5,)], three reduction
    values) does not return a buffer of shape [(5, 2)]: the kernel is
    launched, then [results.reshape((2, 5, 3))] of the 10-element buffer
    raises [ValueError]. *)
Theorem scenario_C_raises_ValueError :
  let call :=
    run_kernel 0 sample_kernel unit_width reduction_op
      (sample_array [2; 4]) (sample_array [5; 3; 4]) tt
      (Some (sample_array [3])) in
  snd call = Raise ValueError
  /\ existsb (@is_launch N unit) (fst call) = true
  /\ reshape (sample_array [5; 2]) [2; 5; 3] = Raise ValueError.
Proof. vm_compute. repeat split. Qed.

(** C4, as stated, fails: in the reduction scenario without reduction
    values the assertion is raised after [cp.zeros] and two [cp.asarray]
    calls were issued. *)
Lemma reduction_without_values_after_device_work :
  exists t,
    run_kernel 0 sample_kernel unit_width reduction_op
      (sample_array [2; 4]) (sample_array [5; 3; 4]) tt None
    = (t, Raise AssertionError)
    /\ t = [DevZeros [5; 2] tt;
            DevAsarray (ravel (sample_array [2; 4]));
            DevAsarray (ravel (sample_array [5; 3; 4]))]
    /\ t <> [].
Proof.
  eexists. split; [vm_compute; reflexivity|].
  split; [vm_compute; reflexivity | discriminate].
Qed.

Lemma reduction_without_values_fails_witness :
  exists t e,
    run_kernel 0 sample_kernel unit_width reduction_op
      (sample_array [2; 4]) (sample_array [5; 3; 4]) tt None = (t, Raise e)
    /\ existsb (@is_launch N unit) t = false.
Proof.
  exact (proj1 (@reduction_without_values_fails N unit 0 sample_kernel
                  unit_width reduction_op (sample_array [2; 4])
                  (sample_array [5; 3; 4]) tt eq_refl)).
Defined.

Lemma zero_threads_division_by_zero_witness :
  exists t,
    run_kernel 0 sample_kernel unit_width plain_op
      (sample_array [0; 4]) (sample_array [5; 3; 4]) tt None
    = (t, Raise ZeroDivisionError)
    /\ existsb (@is_launch N unit) t = false.
Proof.
  exact (proj2 (proj2
    (@zero_threads_division_by_zero N unit 0 sample_kernel unit_width plain_op
       (sample_array [0; 4]) (sample_array [5; 3; 4]) tt None
       [] [5] 0 4 3 4 eq_refl eq_refl eq_refl))).
Defined.

Lemma kernel_argument_list_witness :
  exists args,
    In (DevLaunch (1, 5, 1) (30, 1, 1) args)
       (fst (run_kernel 0 sample_kernel unit_width reduction_op
               (sample_array [5; 2; 4]) (sample_array [5; 15; 4]) tt
               (Some (sample_array [15])))).
Proof.
  destruct (@kernel_argument_list N unit 0 sample_kernel unit_width
              reduction_op (sample_array [5; 2; 4]) (sample_array [5; 15; 4])
              tt (Some (sample_array [15])) [5] [5] 2 4 15 4
              eq_refl eq_refl) as [_ H].
  apply H; try (vm_compute; (reflexivity || discriminate)); discriminate.
Defined.

Lemma reduction_values_ignored_witness :
  run_kernel 0 sample_kernel unit_width plain_op
    (sample_array [2; 4]) (sample_array [5; 3; 4]) tt None
  = run_kernel 0 sample_kernel unit_width plain_op
      (sample_array [2; 4]) (sample_array [5; 3; 4]) tt
      (Some (sample_array [3])).
Proof.
  apply (@reduction_values_ignored N unit 0 sample_kernel unit_width plain_op
           (sample_array [2; 4]) (sample_array [5; 3; 4]) tt). reflexivity.
Defined.

(** * Further properties of [run_kernel] *)

Lemma index_penultimate_short (A : Type) (t : list A) :
  (length t < 2)%nat -> Py.index t (-2) = Raise IndexError.
Proof.
  intros H. unfold Py.index. change (-2 <? 0)%Z with true. cbv iota.
  destruct ((0 <=? -2 + Z.of_nat (length t))
            && (-2 + Z.of_nat (length t) <? Z.of_nat (length t)))%Z eqn:E;
    [|reflexivity].
  apply andb_prop in E. destruct E as [E _]. apply Z.leb_le in E. lia.
Qed.

Lemma index_penultimate_ok (A : Type) (t : list A) :
  (2 <= length t)%nat -> exists x, Py.index t (-2) = Ok x.
Proof.
  intros H. unfold Py.index. change (-2 <? 0)%Z with true. cbv iota.
  destruct ((0 <=? -2 + Z.of_nat (length t))
            && (-2 + Z.of_nat (length t) <? Z.of_nat (length t)))%Z eqn:E.
  - destruct (nth_error t (Z.to_nat (-2 + Z.of_nat (length t)))) eqn:En.
    + eexists. reflexivity.
    + apply nth_error_None in En. lia.
  - apply andb_false_iff in E.
    destruct E as [E|E]; [apply Z.leb_gt in E|apply Z.ltb_ge in E]; lia.
Qed.

Section EarlyFailures.

Variables (V DType : Type) (zero : V).
Variables (kernel : Kernel V DType) (variant : CamVariant) (op : CamOp).
Variables (inputs cam : ndarray V DType) (dt : DType).
Variable rv : option (ndarray V DType).

Lemma run_kernel_short_operand :
  (length (shape inputs) < 2)%nat \/ (length (shape cam) < 2)%nat ->
  exists e, run_kernel zero kernel variant op inputs cam dt rv = ([], Raise e).
Proof.
  intros H. unfold run_kernel.
  destruct (Py.index (shape inputs) (-2)) as [x|e] eqn:Ei;
    [|exists e; reflexivity].
  destruct H as [H|H].
  - rewrite (index_penultimate_short _ H) in Ei. discriminate.
  - rewrite (index_penultimate_short _ H). exists IndexError. reflexivity.
Qed.

(** An operand with fewer than two dimensions has no row count:
    [shape[-2]] raises [IndexError] before anything reaches the device. *)
Theorem too_few_dimensions_IndexError :
  (length (shape inputs) < 2)%nat \/ (length (shape cam) < 2)%nat ->
  run_kernel zero kernel variant op inputs cam dt rv = ([], Raise IndexError).
Proof.
  intros H. unfold run_kernel.
  destruct (Nat.lt_ge_cases (length (shape inputs)) 2) as [Hi|Hi].
  - rewrite (index_penultimate_short _ Hi). reflexivity.
  - destruct H as [H|H]; [lia|].
    destruct (index_penultimate_ok _ Hi) as (x & Ex).
    rewrite Ex, (index_penultimate_short _ H). reflexivity.
Qed.

(** A zero cell encoding width makes the column count
    [cam.shape[-1] // cell_encoding_width] raise [ZeroDivisionError],
    again before anything reaches the device. *)
Theorem zero_encoding_width_ZeroDivisionError
    (io co : list N) (ir ic cr cc : N) :
  shape inputs = io ++ [ir; ic] ->
  shape cam = co ++ [cr; cc] ->
  cell_encoding_width variant = 0 ->
  run_kernel zero kernel variant op inputs cam dt rv
  = ([], Raise ZeroDivisionError).
Proof.
  intros Hin Hcam Hw.
  rewrite (@run_kernel_eq _ _ zero kernel variant op _ _ dt rv
             _ _ _ _ _ _ Hin Hcam).
  rewrite Hw. reflexivity.
Qed.

End EarlyFailures.

Lemma too_few_dimensions_IndexError_witness :
  run_kernel 0 sample_kernel unit_width plain_op
    (sample_array [4]) (sample_array [5; 3; 4]) tt None
  = ([], Raise IndexError).
Proof.
  apply (@too_few_dimensions_IndexError N unit 0 sample_kernel unit_width
           plain_op (sample_array [4]) (sample_array [5; 3; 4]) tt None).
  left. simpl. lia.
Defined.

Lemma zero_encoding_width_ZeroDivisionError_witness :
  run_kernel 0 sample_kernel {| cell_encoding_width := 0 |} plain_op
    (sample_array [2; 4]) (sample_array [5; 3; 4]) tt None
  = ([], Raise ZeroDivisionError).
Proof.
  apply (@zero_encoding_width_ZeroDivisionError N unit 0 sample_kernel
           {| cell_encoding_width := 0 |} plain_op (sample_array [2; 4])
           (sample_array [5; 3; 4]) tt None [] [5] 2 4 3 4);
    reflexivity.
Defined.

(** ** Launch geometry: the single-block case *)

(** When one block can hold all threads of a core, the block has exactly
    [threads_per_core] threads and the grid has one block per core. *)
Theorem launch_geometry_single_block
    (threads_per_core max_threads_per_block : N) (sub_shape : list N) :
  1 <= threads_per_core -> threads_per_core < 2 ^ 53 ->
  threads_per_core <= max_threads_per_block ->
  launch_geometry threads_per_core max_threads_per_block sub_shape
  = Ok ((1, Py.prod sub_shape, 1), (threads_per_core, 1, 1)).
Proof.
  intros H1 H2 H3.
  rewrite launch_geometry_exact by lia.
  rewrite N.min_l by lia.
  unfold ceil_div.
  replace (threads_per_core + threads_per_core - 1)
    with (1 * threads_per_core + (threads_per_core - 1)) by lia.
  rewrite N.div_add_l by lia.
  rewrite N.div_small by lia. reflexivity.
Qed.

Lemma launch_geometry_single_block_witness :
  launch_geometry 30 1024 [4; 3] = Ok ((1, Py.prod [4; 3], 1), (30, 1, 1)).
Proof.
  apply launch_geometry_single_block; vm_compute; (reflexivity || discriminate).
Defined.

(** When they do not fit, every block is full-sized, there are at least
    two blocks per core, and fewer than one block of threads is surplus. *)
Theorem launch_geometry_several_blocks
    (threads_per_core max_threads_per_block : N) (sub_shape : list N) :
  1 <= max_threads_per_block ->
  max_threads_per_block < threads_per_core -> threads_per_core < 2 ^ 53 ->
  exists grid_x,
    launch_geometry threads_per_core max_threads_per_block sub_shape
    = Ok ((grid_x, Py.prod sub_shape, 1), (max_threads_per_block, 1, 1))
    /\ 2 <= grid_x
    /\ threads_per_core <= max_threads_per_block * grid_x
    /\ max_threads_per_block * grid_x < threads_per_core + max_threads_per_block.
Proof.
  intros H1 H2 H3.
  exists (ceil_div threads_per_core max_threads_per_block).
  rewrite launch_geometry_exact by lia.
  rewrite N.min_r by lia.
  destruct (@ceil_div_spec threads_per_core max_threads_per_block)
    as (C1 & C2 & C3); try lia.
  split; [reflexivity|]. repeat split; nia.
Qed.

Lemma launch_geometry_several_blocks_witness :
  exists grid_x,
    launch_geometry 3000 1024 [4; 3]
    = Ok ((grid_x, Py.prod [4; 3], 1), (1024, 1, 1))
    /\ 2 <= grid_x
    /\ 3000 <= 1024 * grid_x
    /\ 1024 * grid_x < 3000 + 1024.
Proof.
  apply launch_geometry_several_blocks; vm_compute; (reflexivity || discriminate).
Defined.

(** ** Reductions over stacks of different depth *)

Lemma range_length (a b : Z) : length (Py.range a b) = Z.to_nat (b - a).
Proof. unfold Py.range. rewrite length_map, length_seq. reflexivity. Qed.

Lemma overhang_length (sub_shape shape : list N) :
  length (overhang sub_shape shape) = (length shape - length sub_shape)%nat.
Proof. rewrite overhang_firstn, length_firstn. lia. Qed.

Lemma reshape_shape (V DType : Type) (a x : ndarray V DType) (s : list N) :
  reshape a s = Ok x -> shape x = s.
Proof.
  unfold reshape. destruct (Py.prod s =? Py.prod (shape a)); [|discriminate].
  intros E. injection E as E. subst x. reflexivity.
Qed.

Lemma reshape_raises (V DType : Type) (a : ndarray V DType) (s : list N) e :
  reshape a s = Raise e -> e = ValueError.
Proof.
  unfold reshape. destruct (Py.prod s =? Py.prod (shape a)); [discriminate|].
  intros E. injection E as E. auto.
Qed.

Lemma transpose_wrong_arity (V DType : Type) (a : ndarray V DType) axes :
  length axes <> length (shape a) -> transpose a axes = Raise ValueError.
Proof.
  intros H. unfold transpose. apply Nat.eqb_neq in H. rewrite H. reflexivity.
Qed.

Section ReductionRestore.

Variables (V DType : Type).
Variables (r : ndarray V DType) (io co : list N) (ir cr : N).
Hypothesis Hdims : length (shape r) = (length (super_of io co) + 1)%nat.
Hypothesis Hneq : length io <> length co.

(** The buffer of a reduction has one dimension less than the asymmetric
    branches assume: the reshape fails on the size, or else the
    transposition fails on the number of axes. *)
Lemma restore_shape_reduction_raises :
  restore_shape r io co (sub_of io co) (super_of io co) ir cr
  = Raise ValueError.
Proof.
  unfold restore_shape. rewrite Hdims.
  apply Nat.eqb_neq in Hneq. rewrite Hneq. apply Nat.eqb_neq in Hneq.
  assert (Hlt : (length (sub_of io co) < length (super_of io co))%nat).
  { unfold sub_of, super_of.
    destruct (length io <=? length co)%nat eqn:E;
      [apply Nat.leb_le in E | apply Nat.leb_gt in E]; lia. }
  set (sub := sub_of io co) in *. set (super := super_of io co) in *.
  destruct (length co <? length io)%nat.
  - destruct (reshape r (sub ++ overhang sub super ++ [ir; cr])) as [x|e] eqn:E.
    + cbn [rbind]. apply transpose_wrong_arity.
      rewrite (reshape_shape _ _ E).
      rewrite !length_app, !range_length, overhang_length. cbn [length]. lia.
    + cbn [rbind]. f_equal. eapply reshape_raises; eassumption.
  - destruct (reshape r (sub ++ [ir] ++ overhang sub super ++ [cr]))
      as [x|e] eqn:E.
    + cbn [rbind]. apply transpose_wrong_arity.
      rewrite (reshape_shape _ _ E).
      rewrite !length_app, !range_length, overhang_length. cbn [length]. lia.
    + cbn [rbind]. f_equal. eapply reshape_raises; eassumption.
Qed.

End ReductionRestore.

Section ReductionCalls.

Variables (V DType : Type) (zero : V).
Variables (kernel : Kernel V DType) (variant : CamVariant) (op : CamOp).
Variables (inputs cam : ndarray V DType) (dt : DType).
Variable rv : option (ndarray V DType).
Variables (io co : list N) (ir ic cr cc : N).

(** A reduction whose operands have outer shapes of different length never
    returns: with reduction values and a valid launch geometry the kernel
    is launched and the result is then lost to a [ValueError]. *)
Theorem reduction_unequal_depth_never_returns :
  shape inputs = io ++ [ir; ic] ->
  shape cam = co ++ [cr; cc] ->
  is_reduction op = true ->
  length io <> length co ->
  let sub_shape := sub_of io co in
  let threads_per_core :=
    ir * Py.prod (overhang sub_shape io) * cr * Py.prod (overhang sub_shape co) in
  (forall t res,
     run_kernel zero kernel variant op inputs cam dt rv <> (t, Ok res))
  /\ (cell_encoding_width variant <> 0 ->
      1 <= threads_per_core -> threads_per_core < 2 ^ 53 ->
      1 <= max_threads_per_block kernel ->
      rv <> None ->
      exists t,
        run_kernel zero kernel variant op inputs cam dt rv
        = (t, Raise ValueError)
        /\ existsb (@is_launch V DType) t = true).
Proof.
  intros Hin Hcam Hred Hneq sub_shape threads_per_core.
  rewrite (@run_kernel_eq _ _ zero kernel variant op _ _ dt rv
             _ _ _ _ _ _ Hin Hcam).
  fold sub_shape. fold threads_per_core. rewrite Hred.
  assert (Hr : forall g b args,
            restore_shape
              (written kernel g b args
                 (fresh_results zero
                    (results_shape_of true (super_of io co) ir cr) dt))
              io co sub_shape (super_of io co) ir cr = Raise ValueError).
  { intros. apply restore_shape_reduction_raises; [|exact Hneq].
    unfold written, fresh_results, results_shape_of. cbn [shape].
    rewrite length_app. reflexivity. }
  split.
  - intros t res.
    destruct (cell_encoding_width variant =? 0); [discriminate|].
    destruct (launch_geometry _ _ _) as [[g b]|e]; [|discriminate].
    destruct rv as [values|]; [|discriminate].
    cbv zeta. rewrite Hr. discriminate.
  - intros Hw H1 H2 H3 Hrv.
    apply N.eqb_neq in Hw. rewrite Hw.
    rewrite (launch_geometry_exact sub_shape H1 H2 H3).
    destruct rv as [values|]; [|congruence].
    cbv zeta. rewrite Hr. eexists. split; reflexivity.
Qed.

End ReductionCalls.

Lemma reduction_unequal_depth_never_returns_witness :
  exists t,
    run_kernel 0 sample_kernel unit_width reduction_op
      (sample_array [2; 4]) (sample_array [5; 3; 4]) tt
      (Some (sample_array [3]))
    = (t, Raise ValueError)
    /\ existsb (@is_launch N unit) t = true.
Proof.
  destruct (@reduction_unequal_depth_never_returns N unit 0 sample_kernel
              unit_width reduction_op (sample_array [2; 4])
              (sample_array [5; 3; 4]) tt (Some (sample_array [3]))
              [] [5] 2 4 3 4 eq_refl eq_refl eq_refl)
    as [_ H]; [simpl; lia|].
  apply H; try (vm_compute; (reflexivity || discriminate)); discriminate.
Defined.

(** ** The overhang splits the longer outer shape *)

Lemma overhang_app_iff (sub_shape super_shape : list N) :
  trailing_suffix sub_shape super_shape
  <-> overhang sub_shape super_shape ++ sub_shape = super_shape.
Proof.
  split.
  - intros [ovh E]. subst super_shape. rewrite overhang_suffix. reflexivity.
  - intros E. exists (overhang sub_shape super_shape). symmetry. exact E.
Qed.

(** The documented precondition says exactly that the overhang of the
    longer outer shape, followed by the shorter one, gives the longer one
    back; the sizes then factor accordingly. *)
Theorem overhang_partitions_super_shape (sub_shape super_shape : list N) :
  (trailing_suffix sub_shape super_shape
   <-> overhang sub_shape super_shape ++ sub_shape = super_shape)
  /\ (trailing_suffix sub_shape super_shape ->
      Py.prod super_shape
      = Py.prod (overhang sub_shape super_shape) * Py.prod sub_shape).
Proof.
  split; [apply overhang_app_iff|].
  intros Hs. rewrite <- prod_app.
  rewrite (proj1 (overhang_app_iff sub_shape super_shape) Hs). reflexivity.
Qed.

Lemma overhang_partitions_super_shape_witness :
  Py.prod [5; 2; 4; 3] = Py.prod (overhang [4; 3] [5; 2; 4; 3]) * Py.prod [4; 3].
Proof.
  apply (proj2 (overhang_partitions_super_shape [4; 3] [5; 2; 4; 3])).
  exists [5; 2]. reflexivity.
Defined.

(** ** One thread per result cell *)

Lemma results_size_is_cores_times_threads (io co : list N) (ir cr : N) :
  let sub_shape := sub_of io co in
  let super_shape := super_of io co in
  let threads_per_core :=
    ir * Py.prod (overhang sub_shape io) * cr * Py.prod (overhang sub_shape co) in
  trailing_suffix sub_shape super_shape ->
  Py.prod (results_shape_of false super_shape ir cr)
  = Py.prod sub_shape * threads_per_core.
Proof.
  intros sub_shape super_shape threads_per_core [ovh E].
  subst sub_shape super_shape threads_per_core.
  unfold results_shape_of. rewrite prod_app.
  revert E. unfold sub_of, super_of.
  destruct (length io <=? length co)%nat; intros E; rewrite E;
    rewrite overhang_suffix, overhang_self, prod_app;
    unfold Py.prod; cbn [fold_right]; lia.
Qed.

(** ** The device log of a call *)

Lemma shape_split (A : Type) (t : list A) :
  (2 <= length t)%nat -> exists o r c, t = o ++ [r; c].
Proof.
  intros H.
  exists (firstn (length t - 2) t).
  pose proof (firstn_skipn (length t - 2) t) as E.
  pose proof (length_skipn (length t - 2) t) as L.
  destruct (skipn (length t - 2) t) as [|r [|c [|x l]]]; simpl in L; try lia.
  exists r, c. symmetry. exact E.
Qed.

Lemma launch_geometry_cores (tpc mtpb : N) (sub_shape : list N) g b :
  launch_geometry tpc mtpb sub_shape = Ok (g, b) ->
  snd (fst g) = Py.prod sub_shape /\ snd g = 1
  /\ b = (N.min tpc mtpb, 1, 1).
Proof.
  unfold launch_geometry.
  destruct (Py.truediv tpc (N.min tpc mtpb)) as [q|e]; [|discriminate].
  cbn [rbind]. intros E. injection E as Eg Eb. subst g b.
  repeat split.
Qed.

Section KeepsBuffer.

Variables (V DType : Type).

Lemma reshape_keeps (a x : ndarray V DType) (s : list N) :
  strides a = c_strides (shape a) ->
  reshape a s = Ok x ->
  buf x = buf a /\ dtype x = dtype a /\ strides x = c_strides (shape x).
Proof.
  intros Hc. unfold reshape.
  destruct (Py.prod s =? Py.prod (shape a)); [|discriminate].
  intros E. injection E as E. subst x. cbn [buf dtype strides shape].
  rewrite Hc, list_N_eqb_refl. repeat split.
Qed.

Lemma transpose_keeps (a x : ndarray V DType) (axes : list Z) :
  transpose a axes = Ok x -> buf x = buf a /\ dtype x = dtype a.
Proof.
  unfold transpose.
  destruct (length axes =? length (shape a))%nat; [|discriminate].
  destruct (rmap (normalize_axis (length (shape a))) axes) as [axs|e];
    [|discriminate].
  cbn [rbind]. destruct (nodupb axs); [|discriminate].
  intros E. injection E as E. subst x. split; reflexivity.
Qed.

(** Restoring the shape only relabels indices: the contents of the buffer
    and the element type of a C-contiguous array stay as they are. *)
Lemma restore_shape_keeps (r res : ndarray V DType)
    (io co sub super : list N) (ir cr : N) :
  strides r = c_strides (shape r) ->
  restore_shape r io co sub super ir cr = Ok res ->
  buf res = buf r /\ dtype res = dtype r.
Proof.
  intros Hc. unfold restore_shape.
  destruct (length io =? length co)%nat.
  - intros E. injection E as E. subst res. split; reflexivity.
  - destruct (length co <? length io)%nat;
      (destruct (reshape r _) as [x|e] eqn:Er; [|discriminate]);
      cbn [rbind]; intros Et;
      destruct (@reshape_keeps r x _ Hc Er) as (Hb & Hd & _);
      destruct (@transpose_keeps x res _ Et) as (Hb' & Hd');
      split; congruence.
Qed.

End KeepsBuffer.

Section Log.

Variables (V DType : Type) (zero : V).
Variables (kernel : Kernel V DType) (variant : CamVariant) (op : CamOp).
Variables (inputs cam : ndarray V DType) (dt : DType).
Variable rv : option (ndarray V DType).

Let call := run_kernel zero kernel variant op inputs cam dt rv.

Lemma run_kernel_operands :
  (exists e, call = ([], Raise e))
  \/ exists io ir ic co cr cc,
       shape inputs = io ++ [ir; ic] /\ shape cam = co ++ [cr; cc].
Proof.
  destruct (Nat.lt_ge_cases (length (shape inputs)) 2) as [Hi|Hi].
  { left. apply run_kernel_short_operand. left. exact Hi. }
  destruct (Nat.lt_ge_cases (length (shape cam)) 2) as [Hc|Hc].
  { left. apply run_kernel_short_operand. right. exact Hc. }
  right.
  destruct (shape_split _ Hi) as (io & ir & ic & Ei).
  destruct (shape_split _ Hc) as (co & cr & cc & Ec).
  exists io, ir, ic, co, cr, cc. split; assumption.
Qed.

(** Every call launches the kernel at most once.  A call that returns has
    logged, in this order: the allocation of the results buffer, the
    upload of the inputs, the upload of the cam, the upload of the
    reduction values for a reduction, and one kernel launch. *)
Theorem device_log_of_a_call :
  (length (filter (@is_launch V DType) (fst call)) <= 1)%nat
  /\ (forall res,
        snd call = Ok res ->
        exists rs g b args,
          fst call
          = [DevZeros rs dt; DevAsarray (ravel inputs); DevAsarray (ravel cam)]
            ++ (if is_reduction op
                then match rv with
                     | Some values => [DevAsarray (ravel values)]
                     | None => []
                     end
                else [])
            ++ [DevLaunch g b args]).
Proof.
  destruct run_kernel_operands
    as [[e E]|(io & ir & ic & co & cr & cc & Hin & Hcam)].
  { rewrite E. split; [simpl; lia | discriminate]. }
  subst call.
  rewrite (@run_kernel_eq _ _ zero kernel variant op _ _ dt rv
             _ _ _ _ _ _ Hin Hcam).
  destruct (cell_encoding_width variant =? 0);
    [split; [simpl; lia | discriminate]|].
  destruct (launch_geometry _ _ _) as [[g b]|e];
    [|split; [simpl; lia | discriminate]].
  destruct (is_reduction op).
  - destruct rv as [values|]; [|split; [simpl; lia | discriminate]].
    cbv zeta. split; [simpl; lia|].
    intros res _. eexists _, g, b, _. reflexivity.
  - split; [simpl; lia|].
    intros res _. eexists _, g, b, _. reflexivity.
Qed.

(** Whatever the case, a returned array has the requested element type
    and its buffer holds, position by position, the values the kernel left
    in the allocated results buffer: the reshape and the transposition
    change neither the contents of the buffer nor their order. *)
Theorem returned_array_is_written_buffer (t : list (device_op V DType))
    (res : ndarray V DType) :
  call = (t, Ok res) ->
  dtype res = dt
  /\ exists rs g b args,
       In (DevZeros rs dt) t
       /\ In (DevLaunch g b args) t
       /\ buf res
          = map (launch kernel g b args) (seq 0 (N.to_nat (Py.prod rs))).
Proof.
  destruct run_kernel_operands
    as [[e E]|(io & ir & ic & co & cr & cc & Hin & Hcam)].
  { rewrite E. discriminate. }
  subst call.
  rewrite (@run_kernel_eq _ _ zero kernel variant op _ _ dt rv
             _ _ _ _ _ _ Hin Hcam).
  destruct (cell_encoding_width variant =? 0); [discriminate|].
  destruct (launch_geometry _ _ _) as [[g b]|e]; [|discriminate].
  assert (K : forall args rs t0,
            (t0, restore_shape (written kernel g b args (fresh_results zero rs dt))
                   io co (sub_of io co) (super_of io co) ir cr) = (t, Ok res) ->
            In (DevZeros rs dt) t0 -> In (DevLaunch g b args) t0 ->
            dtype res = dt
            /\ exists rs g b args,
                 In (DevZeros rs dt) t /\ In (DevLaunch g b args) t
                 /\ buf res
                    = map (launch kernel g b args)
                        (seq 0 (N.to_nat (Py.prod rs)))).
  { intros args rs t0 E Hz Hl. injection E as Et Er. subst t0.
    apply restore_shape_keeps in Er; [|reflexivity].
    destruct Er as [Hb Hd]. split; [exact Hd|].
    exists rs, g, b, args. repeat split; try assumption.
    rewrite Hb. unfold written, fresh_results. cbn [buf].
    rewrite repeat_length. reflexivity. }
  destruct (is_reduction op).
  - destruct rv as [values|]; [|discriminate].
    cbv zeta. intros E. eapply K; [exact E| |]; simpl; auto 6.
  - intros E. eapply K; [exact E| |]; simpl; auto 6.
Qed.

End Log.

(** ** Case 1: outer shapes of equal length *)

Section EqualDepth.

Variables (V DType : Type) (zero : V).
Variables (kernel : Kernel V DType) (variant : CamVariant) (op : CamOp).
Variables (inputs cam : ndarray V DType) (dt : DType).
Variable rv : option (ndarray V DType).
Variables (io co : list N) (ir ic cr cc : N).
Hypothesis Hin : shape inputs = io ++ [ir; ic].
Hypothesis Hcam : shape cam = co ++ [cr; cc].
Hypothesis Hlen : length io = length co.

Lemma sub_of_equal_depth : sub_of io co = io.
Proof. unfold sub_of. rewrite Hlen, Nat.leb_refl. reflexivity. Qed.

Lemma super_of_equal_depth : super_of io co = co.
Proof. unfold super_of. rewrite Hlen, Nat.leb_refl. reflexivity. Qed.

Lemma overhang_equal_depth : overhang io co = [].
Proof. rewrite overhang_firstn, Hlen, Nat.sub_diag. reflexivity. Qed.

Lemma restore_shape_equal_depth (r : ndarray V DType) sub super :
  restore_shape r io co sub super ir cr = Ok r.
Proof. unfold restore_shape. rewrite Hlen, Nat.eqb_refl. reflexivity. Qed.

(** With outer shapes of equal length the buffer is returned as the
    kernel wrote it: shape [cam_outer_shape + (input_rows, cam_rows)]
    (without [cam_rows] for a reduction), row-major strides, and at every
    index the value written at its row-major position. *)
Theorem equal_depth_returns_kernel_layout :
  let tail := if is_reduction op then [ir] else [ir; cr] in
  (forall t res,
     run_kernel zero kernel variant op inputs cam dt rv = (t, Ok res) ->
     shape res = co ++ tail
     /\ strides res = c_strides (co ++ tail)
     /\ exists g b args,
          In (DevLaunch g b args) t
          /\ forall idx,
               in_bounds idx (co ++ tail) = true ->
               getitem res idx
               = Some (launch kernel g b args
                         (N.to_nat (ravel_multi_index (co ++ tail) idx))))
  /\ (cell_encoding_width variant <> 0 ->
      1 <= ir * cr -> ir * cr < 2 ^ 53 ->
      1 <= max_threads_per_block kernel ->
      (is_reduction op = true -> rv <> None) ->
      exists t res,
        run_kernel zero kernel variant op inputs cam dt rv = (t, Ok res)).
Proof.
  intros tail.
  rewrite (@run_kernel_eq _ _ zero kernel variant op _ _ dt rv
             _ _ _ _ _ _ Hin Hcam).
  rewrite sub_of_equal_depth, super_of_equal_depth.
  rewrite overhang_self, overhang_equal_depth.
  unfold results_shape_of. fold tail.
  assert (K : forall g b args t0 t res,
            (t0, restore_shape
                   (written kernel g b args (fresh_results zero (co ++ tail) dt))
                   io co io co ir cr) = (t, Ok res) ->
            In (DevLaunch g b args) t0 ->
            shape res = co ++ tail
            /\ strides res = c_strides (co ++ tail)
            /\ exists g b args,
                 In (DevLaunch g b args) t
                 /\ forall idx,
                      in_bounds idx (co ++ tail) = true ->
                      getitem res idx
                      = Some (launch kernel g b args
                                (N.to_nat (ravel_multi_index (co ++ tail) idx)))).
  { intros g b args t0 t res E Hl.
    rewrite restore_shape_equal_depth in E. injection E as Et Er.
    subst t0 res. split; [reflexivity|]. split; [reflexivity|].
    exists g, b, args. split; [exact Hl|].
    intros idx Hb. unfold getitem, written, fresh_results.
    cbn [shape strides buf]. rewrite Hb, repeat_length.
    apply nth_error_tabulate.
    apply offset_lt in Hb. unfold ravel_multi_index. lia. }
  split.
  - intros t res.
    destruct (cell_encoding_width variant =? 0); [discriminate|].
    destruct (launch_geometry _ _ _) as [[g b]|e]; [|discriminate].
    destruct (is_reduction op).
    + destruct rv as [values|]; [|discriminate].
      cbv zeta. intros E. eapply K; [exact E|]. simpl; auto 6.
    + intros E. eapply K; [exact E|]. simpl; auto 6.
  - intros Hw H1 H2 H3 Hrv.
    apply N.eqb_neq in Hw. rewrite Hw.
    rewrite launch_geometry_exact
      by (try assumption; change (Py.prod []) with 1; lia).
    destruct (is_reduction op).
    + destruct rv as [values|]; [|exfalso; apply Hrv; reflexivity].
      cbv zeta. rewrite restore_shape_equal_depth. eexists _, _. reflexivity.
    + rewrite restore_shape_equal_depth. eexists _, _. reflexivity.
Qed.

End EqualDepth.

Lemma equal_depth_returns_kernel_layout_witness :
  exists t res,
    run_kernel 0 sample_kernel unit_width reduction_op
      (sample_array [5; 2; 4]) (sample_array [5; 3; 4]) tt
      (Some (sample_array [3])) = (t, Ok res)
    /\ shape res = [5; 2].
Proof.
  destruct (@equal_depth_returns_kernel_layout N unit 0 sample_kernel
              unit_width reduction_op (sample_array [5; 2; 4])
              (sample_array [5; 3; 4]) tt (Some (sample_array [3]))
              [5] [5] 2 4 3 4 eq_refl eq_refl eq_refl) as [Hinv Hret].
  destruct Hret as (t & res & E);
    try (vm_compute; (reflexivity || discriminate)); try discriminate.
  exists t, res. split; [exact E|]. apply (Hinv t res E).
Defined.

(** ** Outer shapes that are not validated *)

Section Unvalidated.

Variables (V DType : Type).
Variables (r res : ndarray V DType) (sub super : list N) (ir cr : N).
Hypothesis Hshape : shape r = super ++ [ir; cr].
Hypothesis Hdepth : (length sub < length super)%nat.

Let k := length sub.
Let n := (length super - length sub)%nat.

Lemma overhang_depth : length (overhang sub super) = n.
Proof. apply overhang_length. Qed.

(** Case 2 without the precondition: whatever is returned has the
    overhang block first, then the shorter outer shape. *)
Lemma restore_shape_inputs_deeper :
  restore_shape r super sub sub super ir cr = Ok res ->
  shape res = overhang sub super ++ sub ++ [ir; cr].
Proof.
  unfold restore_shape. rewrite Hshape.
  destruct (length super =? length sub)%nat eqn:E1;
    [apply Nat.eqb_eq in E1; lia|].
  destruct (length sub <? length super)%nat eqn:E2;
    [|apply Nat.ltb_ge in E2; lia].
  destruct (reshape r (sub ++ overhang sub super ++ [ir; cr])) as [x|e] eqn:Er;
    [|discriminate].
  cbn [rbind]. apply reshape_shape in Er.
  rewrite length_app. cbn [length]. fold k.
  replace (Z.of_nat (length super + 2) - 2)%Z with (Z.of_nat (k + n))
    by (unfold k, n; lia).
  replace (Z.of_nat (length super + 2) - 1)%Z with (Z.of_nat (k + n + 1))
    by (unfold k, n; lia).
  change 0%Z with (Z.of_nat 0).
  rewrite !range_of_nat.
  replace (k + n - k)%nat with n by lia. rewrite Nat.sub_0_r.
  change [Z.of_nat (k + n); Z.of_nat (k + n + 1)]
    with (map Z.of_nat [k + n; k + n + 1]%nat).
  rewrite <- !map_app.
  destruct (axes_inputs_superset_valid k n) as [Hnd Hall].
  rewrite transpose_permutation.
  - intros E. injection E as E. subst res. cbn [shape]. rewrite Er.
    apply permute_inputs_superset; [reflexivity | apply overhang_depth].
  - rewrite Er, !length_app, !length_seq, overhang_depth. cbn [length].
    unfold k. lia.
  - rewrite Er, !length_app, overhang_depth. cbn [length]. fold k.
    eapply Forall_impl; [|exact Hall]. cbv beta. intros; lia.
  - exact Hnd.
Qed.

(** Case 3 without the precondition. *)
Lemma restore_shape_cam_deeper :
  restore_shape r sub super sub super ir cr = Ok res ->
  shape res = overhang sub super ++ sub ++ [ir; cr].
Proof.
  unfold restore_shape. rewrite Hshape.
  destruct (length sub =? length super)%nat eqn:E1;
    [apply Nat.eqb_eq in E1; lia|].
  destruct (length super <? length sub)%nat eqn:E2;
    [apply Nat.ltb_lt in E2; lia|].
  destruct (reshape r (sub ++ [ir] ++ overhang sub super ++ [cr]))
    as [x|e] eqn:Er; [|discriminate].
  cbn [rbind]. apply reshape_shape in Er.
  rewrite length_app. cbn [length]. fold k.
  replace (Z.of_nat k + 1)%Z with (Z.of_nat (k + 1)) by lia.
  replace (Z.of_nat (length super + 2) - 1)%Z with (Z.of_nat (k + 1 + n))
    by (unfold k, n; lia).
  change 0%Z with (Z.of_nat 0).
  rewrite !range_of_nat.
  replace (k + 1 + n - (k + 1))%nat with n by lia. rewrite Nat.sub_0_r.
  change [Z.of_nat k; Z.of_nat (k + 1 + n)]
    with (map Z.of_nat [k; k + 1 + n]%nat).
  rewrite <- !map_app.
  destruct (axes_cam_superset_valid k n) as [Hnd Hall].
  rewrite transpose_permutation.
  - intros E. injection E as E. subst res. cbn [shape]. rewrite Er.
    apply permute_cam_superset; [reflexivity | apply overhang_depth].
  - rewrite Er. repeat (rewrite ?length_app, ?length_seq; cbn [length]).
    rewrite overhang_depth. unfold k. lia.
  - rewrite Er. repeat (rewrite ?length_app; cbn [length]).
    rewrite overhang_depth. fold k.
    eapply Forall_impl; [|exact Hall]. cbv beta. intros; lia.
  - exact Hnd.
Qed.

End Unvalidated.

Section UnvalidatedCalls.

Variables (V DType : Type) (zero : V).
Variables (kernel : Kernel V DType) (variant : CamVariant) (op : CamOp).
Variables (inputs cam : ndarray V DType) (dt : DType).
Variable rv : option (ndarray V DType).
Variables (io co : list N) (ir ic cr cc : N).

(** [run_kernel] does not check that the shorter outer shape is a trailing
    suffix of the longer one.  A non-reduction call on outer shapes of
    different length that returns has the shape
    [overhang(super_shape) + sub_shape + (input_rows, cam_rows)], which is
    the logical shape [super_shape + (input_rows, cam_rows)] exactly when
    the precondition holds. *)
Theorem unvalidated_outer_shapes :
  shape inputs = io ++ [ir; ic] ->
  shape cam = co ++ [cr; cc] ->
  is_reduction op = false ->
  length io <> length co ->
  let sub_shape := sub_of io co in
  let super_shape := super_of io co in
  forall t res,
    run_kernel zero kernel variant op inputs cam dt rv = (t, Ok res) ->
    shape res = overhang sub_shape super_shape ++ sub_shape ++ [ir; cr]
    /\ (shape res = super_shape ++ [ir; cr]
        <-> trailing_suffix sub_shape super_shape).
Proof.
  intros Hin Hcam Hred Hneq sub_shape super_shape t res E.
  destruct (@run_kernel_plain_inv _ _ zero kernel variant op _ _ dt
              _ _ _ _ _ _ Hin Hcam rv t res Hred E)
    as (g & b & _ & _ & _ & Hr).
  fold sub_shape super_shape in Hr.
  assert (Hs : shape res
               = overhang sub_shape super_shape ++ sub_shape ++ [ir; cr]).
  { revert Hr. unfold sub_shape, super_shape, sub_of, super_of.
    destruct (length io <=? length co)%nat eqn:El;
      [apply Nat.leb_le in El | apply Nat.leb_gt in El]; intros Hr.
    - eapply restore_shape_cam_deeper; [| |exact Hr].
      + unfold written, fresh_results, results_shape_of.
        rewrite Hred. reflexivity.
      + lia.
    - eapply restore_shape_inputs_deeper; [| |exact Hr].
      + unfold written, fresh_results, results_shape_of.
        rewrite Hred. reflexivity.
      + lia. }
  split; [exact Hs|].
  rewrite Hs, (app_assoc _ sub_shape). split.
  - intros Ea. apply app_inv_tail in Ea.
    apply (proj2 (overhang_app_iff sub_shape super_shape)).
    exact Ea.
  - intros Hp. f_equal.
    apply (proj1 (overhang_app_iff sub_shape super_shape)).
    exact Hp.
Qed.

End UnvalidatedCalls.

(** Inputs stacked as [(5, 2, 3)] against a cam stacked as [(3, 2)]: the
    precondition fails, yet the call returns, with shape
    [(5, 3, 2, 2, 3)] instead of [(5, 2, 3, 2, 3)]. *)
Lemma unvalidated_outer_shapes_witness :
  exists t res,
    run_kernel 0 sample_kernel unit_width plain_op
      (sample_array [5; 2; 3; 2; 4]) (sample_array [3; 2; 3; 4]) tt None
    = (t, Ok res)
    /\ shape res = [5; 3; 2; 2; 3].
Proof.
  eexists _, _. split; [vm_compute; reflexivity|].
  refine (proj1 (@unvalidated_outer_shapes N unit 0 sample_kernel unit_width
                   plain_op (sample_array [5; 2; 3; 2; 4])
                   (sample_array [3; 2; 3; 4]) tt None
                   [5; 2; 3] [3; 2] 2 4 3 4
                   eq_refl eq_refl eq_refl _ _ _ _)).
  - simpl. lia.
  - vm_compute. reflexivity.
Defined.

Section Cells.

Variables (V DType : Type) (zero : V).
Variables (kernel : Kernel V DType) (variant : CamVariant) (op : CamOp).
Variables (inputs cam : ndarray V DType) (dt : DType).
Variable rv : option (ndarray V DType).
Variables (io co : list N) (ir ic cr cc : N).

(** The buffer is allocated in the caller's shape but filled in the even
    stack layout; both have the same size.  In a non-reduction call that
    meets the precondition, the allocated buffer has [grid.y] (the number
    of cores) times [threads_per_core] cells. *)
Theorem one_thread_per_result_cell :
  shape inputs = io ++ [ir; ic] ->
  shape cam = co ++ [cr; cc] ->
  is_reduction op = false ->
  let sub_shape := sub_of io co in
  let threads_per_core :=
    ir * Py.prod (overhang sub_shape io) * cr * Py.prod (overhang sub_shape co) in
  trailing_suffix sub_shape (super_of io co) ->
  forall rs dt' grid_x grid_y grid_z block args,
    let t := fst (run_kernel zero kernel variant op inputs cam dt rv) in
    In (DevZeros rs dt') t ->
    In (DevLaunch (grid_x, grid_y, grid_z) block args) t ->
    Py.prod rs = grid_y * threads_per_core.
Proof.
  intros Hin Hcam Hred sub_shape threads_per_core Hp
    rs dt' grid_x grid_y grid_z block args.
  rewrite (@run_kernel_eq _ _ zero kernel variant op _ _ dt rv
             _ _ _ _ _ _ Hin Hcam).
  fold sub_shape. fold threads_per_core. rewrite Hred.
  destruct (cell_encoding_width variant =? 0);
    [intros t Hz; destruct Hz|].
  destruct (launch_geometry threads_per_core (max_threads_per_block kernel)
              sub_shape) as [[g b]|e] eqn:Eg.
  - apply launch_geometry_cores in Eg. destruct Eg as (Ey & _ & _).
    intros t Hz Hl. subst t. cbn [fst] in Hz, Hl.
    repeat (destruct Hz as [Hz|Hz]; [try discriminate|]); [|destruct Hz].
    repeat (destruct Hl as [Hl|Hl]; [try discriminate|]); [|destruct Hl].
    injection Hz as Hz _. injection Hl as Hl _ _. subst rs g.
    cbn [fst snd] in Ey. subst grid_y.
    apply results_size_is_cores_times_threads. exact Hp.
  - intros t Hz Hl. subst t. cbn [fst] in Hl.
    destruct Hl as [Hl|[]]. discriminate.
Qed.

End Cells.

Lemma one_thread_per_result_cell_witness :
  Py.prod [5; 2; 3] = 1 * (2 * Py.prod (overhang (sub_of [] [5]) [])
                           * 3 * Py.prod (overhang (sub_of [] [5]) [5])).
Proof.
  refine (@one_thread_per_result_cell N unit 0 sample_kernel unit_width
            plain_op (sample_array [2; 4]) (sample_array [5; 3; 4]) tt None
            [] [5] 2 4 3 4 eq_refl eq_refl eq_refl _
            [5; 2; 3] tt 1 1 1 (30, 1, 1) _ _ _).
  - exists [5]. reflexivity.
  - vm_compute. left. reflexivity.
  - vm_compute. do 3 right. left. reflexivity.
Defined.

Lemma device_log_of_a_call_witness :
  exists rs g b args,
    fst (run_kernel 0 sample_kernel unit_width reduction_op
           (sample_array [5; 2; 4]) (sample_array [5; 3; 4]) tt
           (Some (sample_array [3])))
    = [DevZeros rs tt; DevAsarray (ravel (sample_array [5; 2; 4]));
       DevAsarray (ravel (sample_array [5; 3; 4]))]
      ++ [DevAsarray (ravel (sample_array [3]))]
      ++ [DevLaunch g b args].
Proof.
  eapply (proj2 (@device_log_of_a_call N unit 0 sample_kernel unit_width
                   reduction_op (sample_array [5; 2; 4])
                   (sample_array [5; 3; 4]) tt (Some (sample_array [3])))).
  vm_compute. reflexivity.
Defined.

Lemma returned_array_is_written_buffer_witness :
  exists t res,
    run_kernel 0 sample_kernel unit_width plain_op
      (sample_array [2; 4]) (sample_array [5; 3; 4]) tt None = (t, Ok res)
    /\ dtype res = tt
    /\ exists rs g b args,
         In (DevZeros rs tt) t
         /\ In (DevLaunch g b args) t
         /\ buf res
            = map (launch sample_kernel g b args)
                (seq 0 (N.to_nat (Py.prod rs))).
Proof.
  eexists _, _. split; [vm_compute; reflexivity|].
  apply (@returned_array_is_written_buffer N unit 0 sample_kernel unit_width
           plain_op (sample_array [2; 4]) (sample_array [5; 3; 4]) tt None).
  vm_compute. reflexivity.
Defined.
